(** * Panopti viewer session: a shallow embedding of [panopti/viewer.py]

    The development follows the source file top down: first the Python
    data the handlers manipulate (JSON-like values, dictionaries in
    insertion order, the string methods the handlers call), then the
    collaborators that live in other modules of the package (taken as type
    classes), then [BaseViewer] and [ViewerClient] as state-passing
    functions over a record, and last the properties of the protocol
    layer. *)

From Stdlib Require Import String Ascii List Bool ZArith QArith Lia DecimalString.
From Stdlib Require Import Sorted.
From Stdlib Require OrderedTypeEx.
Import ListNotations.
Close Scope Q_scope.
Open Scope string_scope.
Open Scope list_scope.

(* ===================================================================== *)
(** ** Python values *)
(* ===================================================================== *)

Module Py.

Set Warnings "-register-all".

(** Values that travel in messages and live in console scopes.  [VObj] is
    any other instance (a material, a module, ...): its class name and its
    attribute dictionary. *)
Inductive value : Type :=
| VNone
| VBool (b : bool)
| VInt (z : Z)
| VFloat (q : Q)
| VStr (s : string)
| VList (l : list value)
| VDict (d : list (string * value))
| VObj (cls : string) (fields : list (string * value)).

(** A [dict] with string keys, in insertion order. *)
Definition dict := list (string * value).

(** Interpreter exceptions, by the class the [except] clauses of the
    source discriminate on.  [PyBaseException] stands for the classes
    outside [Exception] (KeyboardInterrupt, SystemExit, ...). *)
Inductive exn : Type :=
| SyntaxError (msg : string)
| ValueError (msg : string)
| AttributeError (msg : string)
| UnboundLocalError (msg : string)
| PyException (cls msg : string)
| PyBaseException (cls msg : string).

(** [isinstance(e, Exception)] *)
Definition is_Exception (e : exn) : bool :=
  match e with
  | PyBaseException _ _ => false
  | _ => true
  end.

(** [isinstance(e, SyntaxError)] *)
Definition is_SyntaxError (e : exn) : bool :=
  match e with
  | SyntaxError _ => true
  | _ => false
  end.

(** Result of a call into foreign code: a value or a raised exception. *)
Inductive result (A : Type) : Type :=
| Ok (a : A)
| Err (e : exn).
Arguments Ok {A} a.
Arguments Err {A} e.

(** Truth value of an object, as [if x:] / [not x] / [x or y] test it. *)
Definition truthy (v : value) : bool :=
  match v with
  | VNone => false
  | VBool b => b
  | VInt z => negb (z =? 0)%Z
  | VFloat q => negb (Qeq_bool q 0%Q)
  | VStr s => negb (s =? "")
  | VList l => match l with [] => false | _ => true end
  | VDict d => match d with [] => false | _ => true end
  | VObj _ _ => true
  end.

(** [x or y] *)
Definition py_or (x y : value) : value := if truthy x then x else y.

(** [v == s] for a [str] [s]: only an equal [str] compares equal. *)
Definition eq_str (v : value) (s : string) : bool :=
  match v with
  | VStr t => t =? s
  | _ => false
  end.

(** [isinstance(v, dict)] *)
Definition is_dict (v : value) : bool :=
  match v with VDict _ => true | _ => false end.

(** [v is None] *)
Definition is_None (v : value) : bool :=
  match v with VNone => true | _ => false end.

(** *** Dictionaries *)

Section Dict.
Context {V : Type}.

(** [k in d] *)
Fixpoint contains (d : list (string * V)) (k : string) : bool :=
  match d with
  | [] => false
  | (k', _) :: d' => (k' =? k) || contains d' k
  end.

(** [d.get(k)] as an option *)
Fixpoint lookup (d : list (string * V)) (k : string) : option V :=
  match d with
  | [] => None
  | (k', v) :: d' => if k' =? k then Some v else lookup d' k
  end.

(** [d[k] = v]: a present key keeps its position, a new key goes last. *)
Fixpoint set (d : list (string * V)) (k : string) (v : V) : list (string * V) :=
  match d with
  | [] => [(k, v)]
  | (k', v') :: d' => if k' =? k then (k, v) :: d' else (k', v') :: set d' k v
  end.

(** [d.keys()] and [d.values()] *)
Definition keys (d : list (string * V)) : list string := map fst d.
Definition values (d : list (string * V)) : list V := map snd d.
End Dict.

(** [d.get(k)] and [d.get(k, default)] on values. *)
Definition get (d : dict) (k : string) : value :=
  match lookup d k with Some v => v | None => VNone end.

Definition get_default (d : dict) (k : string) (dflt : value) : value :=
  match lookup d k with Some v => v | None => dflt end.

(** *** Strings *)

Definition is_upper (c : ascii) : bool :=
  let n := nat_of_ascii c in (65 <=? n)%nat && (n <=? 90)%nat.
Definition is_lower (c : ascii) : bool :=
  let n := nat_of_ascii c in (97 <=? n)%nat && (n <=? 122)%nat.
Definition is_digit (c : ascii) : bool :=
  let n := nat_of_ascii c in (48 <=? n)%nat && (n <=? 57)%nat.

(** [str.isspace] on the ASCII range: tab, LF, VT, FF, CR, FS, GS, RS, US
    and the space. *)
Definition is_space (c : ascii) : bool :=
  let n := nat_of_ascii c in
  ((9 <=? n)%nat && (n <=? 13)%nat) || ((28 <=? n)%nat && (n <=? 32)%nat).

Definition newline : string := String (ascii_of_nat 10) "".

(** [s.lower()] on ASCII letters *)
Definition lower_char (c : ascii) : ascii :=
  if is_upper c then ascii_of_nat (nat_of_ascii c + 32) else c.

Fixpoint lower (s : string) : string :=
  match s with
  | "" => ""
  | String c s' => String (lower_char c) (lower s')
  end.

(** [s.lstrip()] / [s.rstrip()] / [s.strip()], over a character class. *)
Fixpoint lstrip_with (p : ascii -> bool) (s : string) : string :=
  match s with
  | "" => ""
  | String c s' => if p c then lstrip_with p s' else s
  end.

Fixpoint rstrip_with (p : ascii -> bool) (s : string) : string :=
  match s with
  | "" => ""
  | String c s' =>
      match rstrip_with p s' with
      | "" => if p c then "" else String c ""
      | r => String c r
      end
  end.

Definition rstrip (s : string) : string := rstrip_with is_space s.
Definition strip (s : string) : string := lstrip_with is_space (rstrip s).

(** [s.rstrip('\n')] *)
Definition rstrip_newlines (s : string) : string :=
  rstrip_with (fun c => (c =? ascii_of_nat 10)%char) s.

(** [s.startswith(p)] and [s.endswith(p)] *)
Definition startswith (s p : string) : bool := prefix p s.

Fixpoint endswith (s p : string) : bool :=
  (s =? p) ||
  match s with
  | "" => false
  | String _ s' => endswith s' p
  end.

(** [c in s] for a single character *)
Fixpoint has_char (c : ascii) (s : string) : bool :=
  match s with
  | "" => false
  | String c' s' => (c' =? c)%char || has_char c s'
  end.

(** [s.split(c, 1)] when [c in s]: the text before the first [c] and the
    text after it. *)
Fixpoint split_first (c : ascii) (s : string) : string * string :=
  match s with
  | "" => ("", "")
  | String c' s' =>
      if (c' =? c)%char then ("", s')
      else let (a, b) := split_first c s' in (String c' a, b)
  end.

(** [s.rsplit(c, 1)] when [c in s]: the text before the last [c] and the
    text after it. *)
Fixpoint rsplit_last (c : ascii) (s : string) : string * string :=
  match s with
  | "" => ("", "")
  | String c' s' =>
      if has_char c s' then
        let (a, b) := rsplit_last c s' in (String c' a, b)
      else if (c' =? c)%char then ("", s')
      else (s, "")
  end.

(** [s.replace(old, new)] for a non-empty [old]: every occurrence, scanned
    left to right without overlap.  [skip] counts the characters of a
    matched occurrence still to be dropped. *)
Fixpoint replace_from (old new : string) (skip : nat) (s : string) : string :=
  match s with
  | "" => ""
  | String c s' =>
      match skip with
      | S k => replace_from old new k s'
      | O =>
          if prefix old s
          then new ++ replace_from old new (String.length old - 1) s'
          else String c (replace_from old new 0 s')
      end
  end.

Definition replace (s old new : string) : string := replace_from old new 0 s.

(** [str.join] *)
Fixpoint join (sep : string) (l : list string) : string :=
  match l with
  | [] => ""
  | [x] => x
  | x :: l' => x ++ sep ++ join sep l'
  end.

(** [x in l] for a list of strings *)
Definition mem (x : string) (l : list string) : bool :=
  existsb (String.eqb x) l.

(** [sorted(set(l))]: insertion into a strictly increasing list. *)
Fixpoint insert_uniq (x : string) (l : list string) : list string :=
  match l with
  | [] => [x]
  | y :: l' =>
      match String.compare x y with
      | Lt => x :: l
      | Eq => l
      | Gt => y :: insert_uniq x l'
      end
  end.

Definition sorted_set (l : list string) : list string :=
  fold_right insert_uniq [] l.

(** [os.path.splitext(p)[1]] (posix): the extension starts at the last dot
    of the last path component, leading dots of the component excluded. *)
Fixpoint basename (p : string) : string :=
  match p with
  | "" => ""
  | String c p' => if has_char "/" p then basename p' else p
  end.

Fixpoint last_ext (s : string) : string :=
  match s with
  | "" => ""
  | String c s' =>
      if has_char "." s' then last_ext s'
      else if (c =? ".")%char then s else ""
  end.

Definition splitext_ext (p : string) : string :=
  let b := lstrip_with (fun c => (c =? ".")%char) (basename p) in
  last_ext b.

(** The [re.search] of [_collect_console_completions]: a letter or
    underscore followed by letters, digits and underscores, anchored at the
    end of the string.  The match is the leftmost position from which such
    an identifier runs to the end. *)
Definition is_ident_start (c : ascii) : bool :=
  is_upper c || is_lower c || (c =? "_")%char.
Definition is_ident_char (c : ascii) : bool :=
  is_ident_start c || is_digit c.

Fixpoint all_chars (p : ascii -> bool) (s : string) : bool :=
  match s with
  | "" => true
  | String c s' => p c && all_chars p s'
  end.

Definition match_identifier (s : string) : bool :=
  match s with
  | "" => false
  | String c s' => is_ident_start c && all_chars is_ident_char s'
  end.

Fixpoint search_trailing_identifier (s : string) : option string :=
  if match_identifier s then Some s
  else match s with
       | "" => None
       | String _ s' => search_trailing_identifier s'
       end.

(** [repr] of an [int] *)
Definition repr_int (z : Z) : string := NilZero.string_of_int (Z.to_int z).

End Py.

Import Py.

(* ===================================================================== *)
(** ** Collaborators outside [viewer.py] *)
(* ===================================================================== *)

(** The scene and control classes imported at the top of the module. *)
Inductive entity_class : Type :=
| Mesh | AnimatedMesh | Points | Arrows
| Slider | Button | Label | Checkbox | Dropdown | DownloadButton
| PlotlyPlot | ColorPicker.

(** Modelled from the spec: the entity classes ([objects/*.py],
    [ui/controls.py]) live in other modules of the package.  An entity is
    its class and the fields it was built with (spec 3: a unique name, a
    transform, a visibility flag, colour and material fields, geometry
    arrays, or a callback and a current value).  An instance is truthy:
    [if not obj] only catches the [None] of a failed lookup. *)
Record entity : Type := {
  ent_class : entity_class;
  ent_attrs : dict
}.

(** Modelled from the spec: the constructor call [cls(viewer=self,
    **kwargs)] keeps the keyword arguments as the fields of the entity. *)
Definition new_entity (cls : entity_class) (kwargs : dict) : entity :=
  {| ent_class := cls; ent_attrs := kwargs |}.

(** What is defined on the classes themselves (methods, properties) is
    taken as a parameter of the development. *)
Class Entities : Type := {
  class_attrs : entity_class -> list string
}.

(** [utils/parse.py] *)
Class Parse : Type := {
  as_array : value -> value;
  as_list : value -> value
}.

(** [utils/print_capture.py]: a segment is a dictionary with the keys
    [text] and [color]. *)
Class PrintCapture : Type := {
  split_text_to_segments : string -> list dict
}.

(** [materials/utils.py] *)
Class Materials : Type := {
  create_material_from_dict : dict -> result value
}.

(** [uuid.uuid4().hex], by the number of the call. *)
Class Entropy : Type := {
  uuid4_hex : nat -> string
}.

(** The namespaces console commands run against: dictionaries held by
    reference, addressed by their position in the store. *)
Definition addr := nat.
Definition heap := list dict.

Definition namespace (h : heap) (a : addr) : dict := nth a h [].

Fixpoint heap_store (h : heap) (a : addr) (d : dict) : heap :=
  match h, a with
  | [], _ => []
  | _ :: h', O => d :: h'
  | d' :: h', S a' => d' :: heap_store h' a' d
  end.

(** One run of compiled code: what it returned or raised, the store it
    left, and what it wrote to the standard streams. *)
Record run : Type := {
  run_result : result value;
  run_heap : heap;
  run_stdout : string;
  run_stderr : string
}.

Inductive compile_mode : Type := EvalMode | ExecMode.

(** The interpreter the console hands commands to: the built-ins
    [compile], [eval], [exec], [dir], [repr], [str], the module attribute
    [__builtins__] and [traceback.format_exc]. *)
Class Interpreter : Type := {
  code : Type;
  compile : string -> compile_mode -> result code;
  eval : code -> heap -> addr -> addr -> run;
  exec : code -> heap -> addr -> addr -> run;
  eval_source : string -> heap -> addr -> addr -> run;
  dir : heap -> value -> list string;
  repr : value -> string;
  str : value -> string;
  format_exc : exn -> string;
  builtins_module : value
}.

(** [base64], [PIL.Image] and [numpy] as [screenshot] uses them.
    [channels] is the length of the last axis of the pixel array. *)
Class Imaging : Type := {
  image : Type;
  ndarray : Type;
  b64decode : string -> result string;
  Image_open : string -> result image;
  convert : image -> string -> image;
  np_array : image -> ndarray;
  Image_save : image -> string -> result unit;
  channels : ndarray -> nat
}.

(* ===================================================================== *)
(** ** The session state *)
(* ===================================================================== *)

(** What a handler does to the world outside the session object, in the
    order it does it: calls on [socket_manager], on [events], on a
    control, on the interpreter ([eval] and [exec] of console text) and on
    the process. *)
Inductive effect : Type :=
| Emit (event : string) (payload : dict)
| EmitWithFallback (event : string) (payload : dict)
| EmitAddGeometry (obj : entity)
| EmitAddControl (control : entity)
| EmitConsoleOutput (segments : list dict)
| Trigger (event : string) (args : list value)
| HandleEvent (control : entity) (v : value)
| Evaluate (source : string)
| Execute (source : string)
| PrintLine (text : string)
| WriteStdout (text : string)
| WriteStderr (text : string)
| SaveImage (filename : string)
| Execv.

(** Default camera parameters used when a new frontend client connects. *)
Definition DEFAULT_CAMERA_STATE : dict :=
  [ ("projection_mode", VStr "perspective");
    ("fov", VInt 50);
    ("near", VFloat (1 # 10)%Q);
    ("far", VInt 1000) ].

Definition _request_events : list string :=
  ["camera_info"; "selected_object"; "screenshot"].

(** The attributes of a [ViewerClient] the handlers read or write, the
    namespaces its console can reach, and the trace of its effects.
    [_request_threads] holds the flag of each [threading.Event]; from
    [__init__] on it and [_request_data] have the three keys of
    [_request_events], so that indexing them never fails. *)
Record ViewerClient : Type := {
  objects : list (string * entity);
  ui_controls : list (string * entity);
  _print_buffer : string;
  _capture_prints_enabled : bool;
  _console_scope_globals : option addr;
  _console_scope_locals : option addr;
  viewer_id : string;
  interactive_console_enabled : bool;
  _console_disabled_warning_emitted : bool;
  _request_threads : list (string * bool);
  _request_data : list (string * value);
  namespaces : heap;
  uuid_calls : nat;
  effects : list effect
}.

(** The namespace of [__main__] is the first dictionary of the store. *)
Definition main_globals : addr := 0.

Definition with_objects (v : list (string * entity)) (s : ViewerClient) :=
  {| objects := v; ui_controls := ui_controls s;
     _print_buffer := _print_buffer s;
     _capture_prints_enabled := _capture_prints_enabled s;
     _console_scope_globals := _console_scope_globals s;
     _console_scope_locals := _console_scope_locals s;
     viewer_id := viewer_id s;
     interactive_console_enabled := interactive_console_enabled s;
     _console_disabled_warning_emitted := _console_disabled_warning_emitted s;
     _request_threads := _request_threads s;
     _request_data := _request_data s;
     namespaces := namespaces s; uuid_calls := uuid_calls s;
     effects := effects s |}.

Definition with_ui_controls (v : list (string * entity)) (s : ViewerClient) :=
  {| objects := objects s; ui_controls := v;
     _print_buffer := _print_buffer s;
     _capture_prints_enabled := _capture_prints_enabled s;
     _console_scope_globals := _console_scope_globals s;
     _console_scope_locals := _console_scope_locals s;
     viewer_id := viewer_id s;
     interactive_console_enabled := interactive_console_enabled s;
     _console_disabled_warning_emitted := _console_disabled_warning_emitted s;
     _request_threads := _request_threads s;
     _request_data := _request_data s;
     namespaces := namespaces s; uuid_calls := uuid_calls s;
     effects := effects s |}.

Definition with_print_buffer (v : string) (s : ViewerClient) :=
  {| objects := objects s; ui_controls := ui_controls s;
     _print_buffer := v;
     _capture_prints_enabled := _capture_prints_enabled s;
     _console_scope_globals := _console_scope_globals s;
     _console_scope_locals := _console_scope_locals s;
     viewer_id := viewer_id s;
     interactive_console_enabled := interactive_console_enabled s;
     _console_disabled_warning_emitted := _console_disabled_warning_emitted s;
     _request_threads := _request_threads s;
     _request_data := _request_data s;
     namespaces := namespaces s; uuid_calls := uuid_calls s;
     effects := effects s |}.

Definition with_console_scope (g l : option addr) (s : ViewerClient) :=
  {| objects := objects s; ui_controls := ui_controls s;
     _print_buffer := _print_buffer s;
     _capture_prints_enabled := _capture_prints_enabled s;
     _console_scope_globals := g;
     _console_scope_locals := l;
     viewer_id := viewer_id s;
     interactive_console_enabled := interactive_console_enabled s;
     _console_disabled_warning_emitted := _console_disabled_warning_emitted s;
     _request_threads := _request_threads s;
     _request_data := _request_data s;
     namespaces := namespaces s; uuid_calls := uuid_calls s;
     effects := effects s |}.

Definition with_warning_emitted (v : bool) (s : ViewerClient) :=
  {| objects := objects s; ui_controls := ui_controls s;
     _print_buffer := _print_buffer s;
     _capture_prints_enabled := _capture_prints_enabled s;
     _console_scope_globals := _console_scope_globals s;
     _console_scope_locals := _console_scope_locals s;
     viewer_id := viewer_id s;
     interactive_console_enabled := interactive_console_enabled s;
     _console_disabled_warning_emitted := v;
     _request_threads := _request_threads s;
     _request_data := _request_data s;
     namespaces := namespaces s; uuid_calls := uuid_calls s;
     effects := effects s |}.

Definition with_request (t : list (string * bool)) (d : list (string * value))
    (s : ViewerClient) :=
  {| objects := objects s; ui_controls := ui_controls s;
     _print_buffer := _print_buffer s;
     _capture_prints_enabled := _capture_prints_enabled s;
     _console_scope_globals := _console_scope_globals s;
     _console_scope_locals := _console_scope_locals s;
     viewer_id := viewer_id s;
     interactive_console_enabled := interactive_console_enabled s;
     _console_disabled_warning_emitted := _console_disabled_warning_emitted s;
     _request_threads := t;
     _request_data := d;
     namespaces := namespaces s; uuid_calls := uuid_calls s;
     effects := effects s |}.

Definition with_namespaces (v : heap) (s : ViewerClient) :=
  {| objects := objects s; ui_controls := ui_controls s;
     _print_buffer := _print_buffer s;
     _capture_prints_enabled := _capture_prints_enabled s;
     _console_scope_globals := _console_scope_globals s;
     _console_scope_locals := _console_scope_locals s;
     viewer_id := viewer_id s;
     interactive_console_enabled := interactive_console_enabled s;
     _console_disabled_warning_emitted := _console_disabled_warning_emitted s;
     _request_threads := _request_threads s;
     _request_data := _request_data s;
     namespaces := v; uuid_calls := uuid_calls s;
     effects := effects s |}.

Definition with_uuid_calls (v : nat) (s : ViewerClient) :=
  {| objects := objects s; ui_controls := ui_controls s;
     _print_buffer := _print_buffer s;
     _capture_prints_enabled := _capture_prints_enabled s;
     _console_scope_globals := _console_scope_globals s;
     _console_scope_locals := _console_scope_locals s;
     viewer_id := viewer_id s;
     interactive_console_enabled := interactive_console_enabled s;
     _console_disabled_warning_emitted := _console_disabled_warning_emitted s;
     _request_threads := _request_threads s;
     _request_data := _request_data s;
     namespaces := namespaces s; uuid_calls := v;
     effects := effects s |}.

(** A call on a collaborator is appended to the trace. *)
Definition perform (e : effect) (s : ViewerClient) :=
  {| objects := objects s; ui_controls := ui_controls s;
     _print_buffer := _print_buffer s;
     _capture_prints_enabled := _capture_prints_enabled s;
     _console_scope_globals := _console_scope_globals s;
     _console_scope_locals := _console_scope_locals s;
     viewer_id := viewer_id s;
     interactive_console_enabled := interactive_console_enabled s;
     _console_disabled_warning_emitted := _console_disabled_warning_emitted s;
     _request_threads := _request_threads s;
     _request_data := _request_data s;
     namespaces := namespaces s; uuid_calls := uuid_calls s;
     effects := effects s ++ [e] |}.

(** How a method ends: it returns a value or raises, and in both cases
    leaves the session in some state. *)
Inductive outcome (A : Type) : Type :=
| Return (a : A) (s : ViewerClient)
| Raise (e : exn) (s : ViewerClient).
Arguments Return {A} a s.
Arguments Raise {A} e s.

Definition bind {A B : Type} (m : outcome A) (k : A -> ViewerClient -> outcome B)
    : outcome B :=
  match m with
  | Return a s => k a s
  | Raise e s => Raise e s
  end.

Definition state_of {A : Type} (m : outcome A) : ViewerClient :=
  match m with
  | Return _ s => s
  | Raise _ s => s
  end.

Definition returns {A : Type} (m : outcome A) : bool :=
  match m with
  | Return _ _ => true
  | Raise _ _ => false
  end.

(* ===================================================================== *)
(** ** [BaseViewer] and [ViewerClient] *)
(* ===================================================================== *)

Section Viewer.
Context {entities : Entities} {parse : Parse} {capture : PrintCapture}
        {materials : Materials} {entropy : Entropy}
        {interp : Interpreter} {imaging : Imaging}.

(** [hasattr(obj, key)]: an instance attribute or something defined on
    the class. *)
Definition hasattr (obj : entity) (key : string) : bool :=
  contains (ent_attrs obj) key || mem key (class_attrs (ent_class obj)).

(** [setattr(obj, key, value)] *)
Definition setattr (obj : entity) (key : string) (v : value) : entity :=
  {| ent_class := ent_class obj; ent_attrs := set (ent_attrs obj) key v |}.

(** [registry.get(key)] for a key taken from a message: lists and
    dictionaries are unhashable, anything that is not a [str] names
    nothing. *)
Definition registry_get (d : list (string * entity)) (key : value)
    : result (option entity) :=
  match key with
  | VStr k => Ok (lookup d k)
  | VList _ | VDict _ => Err (PyException "TypeError" "unhashable type")
  | _ => Ok None
  end.

(** [str(v)] *)
Definition to_str (v : value) : string :=
  match v with
  | VStr s => s
  | _ => str v
  end.

(** [str(e)], as the warning of [handle_update_object] formats it. *)
Definition exn_message (e : exn) : string :=
  match e with
  | SyntaxError m | ValueError m | AttributeError m | UnboundLocalError m => m
  | PyException _ m | PyBaseException _ m => m
  end.

(** *** [BaseViewer] *)

Definition print_colored (text : string) (color : value) (end_ : string)
    (s : ViewerClient) : outcome unit :=
  let text := (text ++ end_)%string in
  let segments := [[("text", VStr text); ("color", color)]] in
  Return tt (perform (EmitConsoleOutput segments) s).

Definition set_console_scope (globals_dict locals_dict : option addr)
    (s : ViewerClient) : outcome unit :=
  match globals_dict with
  | None => Return tt s
  | Some g =>
      let l := match locals_dict with Some l => l | None => g end in
      Return tt (with_console_scope (Some g) (Some l) s)
  end.

Definition _resolve_console_scope (s : ViewerClient) : outcome (addr * addr) :=
  let '(globals_dict, locals_dict) :=
    match _console_scope_globals s with
    | None => (main_globals, Some main_globals)
    | Some g => (g, _console_scope_locals s)
    end in
  let locals_dict :=
    match locals_dict with None => globals_dict | Some l => l end in
  let g := namespace (namespaces s) globals_dict in
  let s :=
    if contains g "__builtins__" then s
    else with_namespaces
           (heap_store (namespaces s) globals_dict
              (set g "__builtins__" builtins_module)) s in
  Return (globals_dict, locals_dict) s.

(** [f"{kind}_{uuid.uuid4().hex[:8]}"] *)
Definition fresh_name (kind : string) (s : ViewerClient) : outcome string :=
  Return (kind ++ "_" ++ substring 0 8 (uuid4_hex (uuid_calls s)))%string
         (with_uuid_calls (S (uuid_calls s)) s).

Definition _add_control (cls : entity_class) (name : string) (kwargs : dict)
    (s : ViewerClient) : outcome entity :=
  let control := new_entity cls (("name", VStr name) :: kwargs) in
  let s := with_ui_controls (set (ui_controls s) name control) s in
  let s := perform (EmitAddControl control) s in
  Return control s.

(** The body shared by [add_mesh], [add_animated_mesh], [add_points] and
    [add_arrows]: synthesize a missing name, build the object, store it
    under its name, announce it. *)
Definition add_geometry (cls : entity_class) (kind : string)
    (name : option string) (kwargs : dict) (s : ViewerClient)
    : outcome entity :=
  bind (match name with
        | None => fresh_name kind s
        | Some n => Return n s
        end)
    (fun name s =>
       let obj := new_entity cls (("name", VStr name) :: kwargs) in
       let s := with_objects (set (objects s) name obj) s in
       let s := perform (EmitAddGeometry obj) s in
       Return obj s).

Definition add_mesh := add_geometry Mesh "mesh".
Definition add_animated_mesh := add_geometry AnimatedMesh "animated_mesh".
Definition add_points := add_geometry Points "points".
Definition add_arrows := add_geometry Arrows "arrows".

Definition slider := _add_control Slider.
Definition button := _add_control Button.
Definition download_button := _add_control DownloadButton.
Definition checkbox := _add_control Checkbox.
Definition dropdown := _add_control Dropdown.
Definition color_picker := _add_control ColorPicker.

Definition label (name : option string) (kwargs : dict) (s : ViewerClient)
    : outcome entity :=
  bind (match name with
        | None => fresh_name "label" s
        | Some n => Return n s
        end)
    (fun name s => _add_control Label name kwargs s).

Definition add_plotly (spec : value) (name : string) (s : ViewerClient)
    : outcome entity :=
  let plot := new_entity PlotlyPlot [("name", VStr name); ("spec", spec)] in
  let s := with_ui_controls (set (ui_controls s) name plot) s in
  let s := perform (EmitAddControl plot) s in
  Return plot s.

(** [self.objects.get(name) or self.ui_controls.get(name)] *)
Definition get_entity (name : string) (s : ViewerClient) : option entity :=
  match lookup (objects s) name with
  | Some o => Some o
  | None => lookup (ui_controls s) name
  end.

Definition handle_ui_event (event_type control_id v : value)
    (s : ViewerClient) : outcome unit :=
  match registry_get (ui_controls s) control_id with
  | Err e => Raise e s
  | Ok None => Return tt s
  | Ok (Some control) => Return tt (perform (HandleEvent control v) s)
  end.

(** *** [ViewerClient] *)

(** Every handler but the two console ones calls [data.get] at once,
    which only a dictionary answers. *)
Definition with_message {A : Type} (data : value) (s : ViewerClient)
    (k : dict -> outcome A) : outcome A :=
  match data with
  | VDict d => k d
  | _ => Raise (AttributeError "object has no attribute 'get'") s
  end.

(** [data.get('viewer_id') != self.viewer_id] *)
Definition foreign (data : dict) (s : ViewerClient) : bool :=
  negb (eq_str (get data "viewer_id") (viewer_id s)).

Definition handle_heartbeat (data : value) (s : ViewerClient) : outcome unit :=
  with_message data s (fun data =>
    if foreign data s then Return tt s
    else Return tt
           (perform (Emit "client_heartbeat"
                       [("viewer_id", VStr (viewer_id s))]) s)).

Definition handle_ui_event_from_server (data : value) (s : ViewerClient)
    : outcome unit :=
  with_message data s (fun data =>
    if foreign data s then Return tt s
    else
      let event_type := get data "eventType" in
      let control_id := get data "controlId" in
      let v := as_array (get data "value") in
      bind (handle_ui_event event_type control_id v s) (fun _ s =>
        Return tt (perform (Trigger "control" [control_id; v]) s))).

(** The loop of [handle_update_object] over [updates.items()].  The
    object is mutated in place, so what was set before an exception
    escapes stays set. *)
Fixpoint apply_updates (items : dict) (obj : entity) (log : list effect)
    : entity * list effect * option exn :=
  match items with
  | [] => (obj, log, None)
  | (key, v) :: items' =>
      if hasattr obj key then
        match v with
        | VDict d =>
            if (key =? "material") && contains d "type" then
              match create_material_from_dict d with
              | Ok material_obj =>
                  apply_updates items' (setattr obj key material_obj) log
              | Err e =>
                  if is_Exception e then
                    apply_updates items' (setattr obj key v)
                      (log ++ [PrintLine
                         ("Warning: Could not recreate material from dict: "
                            ++ exn_message e)%string])
                  else (obj, log, Some e)
              end
            else apply_updates items' (setattr obj key v) log
        | _ => apply_updates items' (setattr obj key v) log
        end
      else apply_updates items' obj log
  end.

Definition perform_all (log : list effect) (s : ViewerClient) : ViewerClient :=
  fold_left (fun s e => perform e s) log s.

Definition handle_update_object (data : value) (s : ViewerClient)
    : outcome unit :=
  with_message data s (fun data =>
    if foreign data s then Return tt s
    else
      let obj_id := get data "id" in
      let updates := get_default data "updates" (VDict []) in
      match registry_get (objects s) obj_id, obj_id with
      | Err e, _ => Raise e s
      | Ok (Some obj), VStr name =>
          match as_array updates with
          | VDict updates =>
              let '(obj, log, raised) := apply_updates updates obj [] in
              let s := with_objects (set (objects s) name obj) s in
              let s := perform_all log s in
              match raised with
              | Some e => Raise e s
              | None =>
                  Return tt
                    (perform (Trigger "update_object" [obj_id; VDict updates]) s)
              end
          | _ => Raise (AttributeError "object has no attribute 'items'") s
          end
      | Ok _, _ => Return tt s
      end).

(** [self.restart()] ends in [os.execv]. *)
Definition handle_restart_script (data : value) (s : ViewerClient)
    : outcome unit :=
  with_message data s (fun data =>
    if foreign data s then Return tt s
    else Return tt (perform Execv s)).

(** The colouring loop of [_emit_console_text]: a segment without a
    colour of its own takes the given one. *)
Definition default_color (color : string) (segment : dict) : dict :=
  if truthy (get segment "color") then segment
  else set segment "color" (VStr color).

Definition _emit_console_text (text : string) (color : option string)
    (s : ViewerClient) : outcome unit :=
  if negb (truthy (VStr text)) then Return tt s
  else
    let s := with_print_buffer (_print_buffer s ++ text)%string s in
    let segments := split_text_to_segments text in
    let segments :=
      match color with
      | Some c => map (default_color c) segments
      | None => segments
      end in
    Return tt (perform (EmitConsoleOutput segments) s).

Definition console_disabled_warning : string :=
  ("[Panopti] Interactive console is disabled for this viewer. "
   ++ "Reconnect with panopti.connect(..., interactive_console=True) "
   ++ "to enable Python execution." ++ newline)%string.

Definition _warn_console_disabled_once (s : ViewerClient) : outcome unit :=
  if _console_disabled_warning_emitted s then Return tt s
  else
    let s := with_warning_emitted true s in
    _emit_console_text console_disabled_warning (Some "yellow") s.

(** One run of console text, [what] being the call made on the
    interpreter: the namespaces take its writes; without redirection its
    output reaches the process streams while it runs. *)
Definition ran (what : effect) (capture_output : bool) (r : run)
    (s : ViewerClient) : ViewerClient :=
  let s := perform what (with_namespaces (run_heap r) s) in
  if capture_output then s
  else
    let s := if truthy (VStr (run_stdout r))
             then perform (WriteStdout (run_stdout r)) s else s in
    if truthy (VStr (run_stderr r))
    then perform (WriteStderr (run_stderr r)) s else s.

(** The [except BaseException] clause of the console. *)
Definition emit_traceback (e : exn) (s : ViewerClient) : outcome unit :=
  _emit_console_text (format_exc e) (Some "red") s.

(** The [finally] clause of [_execute_console_command]. *)
Definition flush_captured (capture_output : bool) (r : option run)
    (s : ViewerClient) : outcome unit :=
  match capture_output, r with
  | true, Some r =>
      bind (if truthy (VStr (run_stdout r))
            then _emit_console_text (run_stdout r) None s
            else Return tt s)
        (fun _ s =>
           if truthy (VStr (run_stderr r))
           then _emit_console_text (run_stderr r) (Some "red") s
           else Return tt s)
  | _, _ => Return tt s
  end.

Definition _execute_console_command (command : value) (s : ViewerClient)
    : outcome unit :=
  let command := rstrip_newlines (to_str (py_or command (VStr ""))) in
  if negb (truthy (VStr (strip command))) then Return tt s
  else
    bind (_resolve_console_scope s) (fun '(globals_dict, locals_dict) s =>
      let capture_output := negb (_capture_prints_enabled s) in
      match compile command EvalMode with
      | Ok compiled =>
          let r := eval compiled (namespaces s) globals_dict locals_dict in
          let s := ran (Evaluate command) capture_output r s in
          bind (match run_result r with
                | Ok result =>
                    if negb (is_None result)
                    then _emit_console_text (repr result ++ newline)%string None s
                    else Return tt s
                | Err e => emit_traceback e s
                end)
            (fun _ s => flush_captured capture_output (Some r) s)
      | Err e =>
          if is_SyntaxError e then
            match compile command ExecMode with
            | Ok compiled =>
                let r := exec compiled (namespaces s) globals_dict locals_dict in
                let s := ran (Execute command) capture_output r s in
                bind (match run_result r with
                      | Ok _ => Return tt s
                      | Err e => emit_traceback e s
                      end)
                  (fun _ s => flush_captured capture_output (Some r) s)
            | Err e =>
                bind (emit_traceback e s) (fun _ s =>
                  flush_captured capture_output None s)
            end
          else
            bind (emit_traceback e s) (fun _ s =>
              flush_captured capture_output None s)
      end).

(** The names [dir(builtins_obj)] or [builtins_obj.keys()] yields. *)
Definition builtins_names (h : heap) (builtins_obj : value) : list string :=
  match builtins_obj with
  | VDict d => keys d
  | _ => dir h builtins_obj
  end.

Definition _collect_console_completions (command : value) (s : ViewerClient)
    : outcome (list string) :=
  let source := rstrip (to_str (py_or command (VStr ""))) in
  if negb (truthy (VStr source)) then Return [] s
  else
    bind (_resolve_console_scope s) (fun '(globals_dict, locals_dict) s =>
      let '(object_expr, prefix) :=
        if has_char "." source
        then let (o, p) := rsplit_last "." source in (strip o, p)
        else ("", "") in
      if truthy (VStr object_expr) then
        let r := eval_source object_expr (namespaces s) globals_dict locals_dict in
        let s := ran (Evaluate object_expr) false r s in
        match run_result r with
        | Err e => Raise e s
        | Ok target =>
            let candidates := dir (namespaces s) target in
            let candidates :=
              if truthy (VStr prefix)
              then filter (fun name => startswith name prefix) candidates
              else filter (fun name => negb (startswith name "__")) candidates in
            Return (sorted_set candidates) s
        end
      else
        match search_trailing_identifier source with
        | None => Return [] s
        | Some prefix =>
            let g := namespace (namespaces s) globals_dict in
            let l := namespace (namespaces s) locals_dict in
            let builtins_obj := get_default g "__builtins__" builtins_module in
            let scope_names :=
              keys g ++ keys l ++ builtins_names (namespaces s) builtins_obj in
            Return
              (sorted_set
                 (filter (fun name => startswith name prefix) scope_names)) s
        end).

Definition _emit_completion_list (completions : list string)
    (s : ViewerClient) : outcome unit :=
  match completions with
  | [] => _emit_console_text ("(no completions)" ++ newline)%string
            (Some "yellow") s
  | _ => _emit_console_text (join ", " completions ++ newline)%string None s
  end.

Definition handle_console_command (data : value) (s : ViewerClient)
    : outcome unit :=
  match data with
  | VDict data =>
      if foreign data s then Return tt s
      else if negb (interactive_console_enabled s)
      then _warn_console_disabled_once s
      else _execute_console_command (get_default data "command" (VStr "")) s
  | _ => Return tt s
  end.

Definition handle_console_complete (data : value) (s : ViewerClient)
    : outcome unit :=
  match data with
  | VDict data =>
      if foreign data s then Return tt s
      else if negb (interactive_console_enabled s)
      then _warn_console_disabled_once s
      else
        let command := get_default data "command" (VStr "") in
        match bind (_collect_console_completions command s)
                _emit_completion_list with
        | Return _ s => Return tt s
        | Raise e s => emit_traceback e s
        end
  | _ => Return tt s
  end.

(** *** Requesting state *)

(** Send all current objects, UI controls, and print history to the
    client. *)
Definition handle_request_state (data : value) (s : ViewerClient)
    : outcome unit :=
  let s := perform (Emit "console_meta"
                      [("enabled", VBool (interactive_console_enabled s))]) s in
  let s := perform (EmitWithFallback "set_camera"
                      [("camera", as_list (VDict DEFAULT_CAMERA_STATE))]) s in
  let s := fold_left
             (fun s obj =>
                if hasattr obj "to_dict" then perform (EmitAddGeometry obj) s
                else s)
             (values (objects s)) s in
  let s := fold_left
             (fun s control =>
                if hasattr control "to_dict"
                then perform (EmitAddControl control) s
                else s)
             (values (ui_controls s)) s in
  let text := _print_buffer s in
  if truthy (VStr text)
  then Return tt (perform (EmitConsoleOutput (split_text_to_segments text)) s)
  else Return tt s.

(** [event.replace('request_', '')]; only a [str] has the method. *)
Definition event_basename (event : value) : result string :=
  match event with
  | VStr e => Ok (replace e "request_" "")
  | _ => Err (AttributeError "object has no attribute 'replace'")
  end.

Definition unknown_state_request (event : value) : exn :=
  ValueError ("Unknown state request event: " ++ to_str event)%string.

(** Emit a state request to the server. *)
Definition emit_state_request (data : dict) (s : ViewerClient)
    : outcome unit :=
  if foreign data s then Return tt s
  else
    let event := get data "event" in
    match event_basename event with
    | Err e => Raise e s
    | Ok basename =>
        let event_data := get_default data "data" (VDict []) in
        if negb (mem basename _request_events)
        then Raise (unknown_state_request event) s
        else
          let s := with_request (set (_request_threads s) basename false)
                     (set (_request_data s) basename VNone) s in
          let event_data := as_list event_data in
          Return tt
            (perform (Emit "relay_state_request"
                        [("event", event);
                         ("viewer_id", VStr (viewer_id s));
                         ("data", event_data)]) s)
    end.

(** Handle incoming state from the frontend. *)
Definition handle_state_request (data : value) (s : ViewerClient)
    : outcome unit :=
  with_message data s (fun data =>
    if foreign data s then Return tt s
    else
      let event := get data "event" in
      match event_basename event with
      | Err e => Raise e s
      | Ok basename =>
          if negb (mem basename _request_events)
          then Raise (unknown_state_request event) s
          else
            Return tt
              (with_request (set (_request_threads s) basename true)
                 (set (_request_data s) basename (get data "data")) s)
      end).

(** *** Panopti events *)

Definition handle_events_camera (data : value) (s : ViewerClient)
    : outcome unit :=
  with_message data s (fun data =>
    if foreign data s then Return tt s
    else Return tt
           (perform (Trigger "camera" [as_array (get data "camera")]) s)).

Definition handle_events_inspect (data : value) (s : ViewerClient)
    : outcome unit :=
  with_message data s (fun data =>
    if foreign data s then Return tt s
    else Return tt
           (perform (Trigger "inspect" [as_array (get data "inspection")]) s)).

Definition handle_events_select_object (data : value) (s : ViewerClient)
    : outcome unit :=
  with_message data s (fun data =>
    if foreign data s then Return tt s
    else Return tt
           (perform (Trigger "select_object" [get data "selected_object"]) s)).

Definition handle_events_gizmo (data : value) (s : ViewerClient)
    : outcome unit :=
  with_message data s (fun data =>
    if foreign data s then Return tt s
    else Return tt
           (perform (Trigger "gizmo" [as_array (get data "gizmo")]) s)).

(** *** The handler table

    The events [__init__] subscribes to with [self.client.on], and the
    handler each one is bound to; the three reply events share
    [handle_state_request]. *)
Inductive inbound : Type :=
| ui_event_response
| update_object
| restart_script
| console_command
| console_complete
| request_state_from_client
| state_reply (event : string)
| events_camera
| events_inspect
| events_select_object
| events_gizmo
| viewer_heartbeat.

Definition dispatch (ev : inbound) (data : value) (s : ViewerClient)
    : outcome unit :=
  match ev with
  | ui_event_response => handle_ui_event_from_server data s
  | update_object => handle_update_object data s
  | restart_script => handle_restart_script data s
  | console_command => handle_console_command data s
  | console_complete => handle_console_complete data s
  | request_state_from_client => handle_request_state data s
  | state_reply _ => handle_state_request data s
  | events_camera => handle_events_camera data s
  | events_inspect => handle_events_inspect data s
  | events_select_object => handle_events_select_object data s
  | events_gizmo => handle_events_gizmo data s
  | viewer_heartbeat => handle_heartbeat data s
  end.

(** *** Pull calls *)

(** [self._request_threads[kind].is_set()] *)
Definition is_set (kind : string) (s : ViewerClient) : bool :=
  match lookup (_request_threads s) kind with
  | Some b => b
  | None => false
  end.

(** [threading.Event.wait(timeout)] on the flag of [kind].  The caller
    sleeps while the transport thread hands [arrivals], the replies that
    come in before the timeout, to [handle_state_request]; it wakes as
    soon as the flag is set, and with [false] when the arrivals run out
    first.  An exception of the handler surfaces on the transport
    thread, not here. *)
Fixpoint wait (kind : string) (arrivals : list value) (s : ViewerClient)
    : bool * ViewerClient :=
  if is_set kind s then (true, s)
  else
    match arrivals with
    | [] => (false, s)
    | data :: arrivals' =>
        wait kind arrivals' (state_of (handle_state_request data s))
    end.

(** Return the current camera parameters as a dictionary. *)
Definition camera (arrivals : list value) (s : ViewerClient)
    : outcome value :=
  bind (emit_state_request
          [("event", VStr "request_camera_info");
           ("viewer_id", VStr (viewer_id s))] s)
    (fun _ s =>
       let (signalled, s) := wait "camera_info" arrivals s in
       if signalled
       then Return (as_array (get (_request_data s) "camera_info")) s
       else Return VNone s).

(** Return the currently selected object name. *)
Definition selected_object (arrivals : list value)
    (s : ViewerClient) : outcome value :=
  bind (emit_state_request
          [("event", VStr "request_selected_object");
           ("viewer_id", VStr (viewer_id s))] s)
    (fun _ s =>
       let (signalled, s) := wait "selected_object" arrivals s in
       if signalled
       then Return (get (_request_data s) "selected_object") s
       else Return VNone s).

Definition supported_extensions : list string := [".png"; ".jpg"; ".jpeg"].

(** [img_b64.split(',', 1)[1]] when there is a comma, else the whole. *)
Definition strip_header (img_b64 : string) : string :=
  if has_char "," img_b64 then snd (split_first "," img_b64) else img_b64.

(** The extension of [filename], [.png] when it has none. *)
Definition chosen_extension (filename : string) : string :=
  let ext := splitext_ext filename in
  if negb (truthy (VStr ext)) then ".png" else ext.

(** [filename if filename.endswith(ext) else filename + ext] *)
Definition saved_as (filename ext : string) : string :=
  if endswith filename ext then filename else (filename ++ ext)%string.

(** The part of [screenshot] that runs once the reply is there: strip
    the data-URI header, decode, pick the pixel format by the extension
    of [filename], save.  [bound] is what the [if filename:] block leaves:
    [ext] and the completed file name, or nothing when the block is
    skipped, and then [ext.lower()] finds [ext] unbound.  A payload that
    is not a [str] fails in [split] or [b64decode]. *)
Definition decode_screenshot (img_b64 : value) (filename : option string)
    (s : ViewerClient) : outcome (option ndarray) :=
  if negb (truthy img_b64) then Return None s
  else
    match img_b64 with
    | VStr img_b64 =>
        let b64data := strip_header img_b64 in
        match b64decode b64data with
        | Err e => Raise e s
        | Ok img_bytes =>
            match Image_open img_bytes with
            | Err e => Raise e s
            | Ok img =>
                let named :=
                  match filename with
                  | Some f => truthy (VStr f)
                  | None => false
                  end in
                let bound : result (option (string * string)) :=
                  match filename with
                  | Some f =>
                      if truthy (VStr f) then
                        let ext := chosen_extension f in
                        if negb (mem (lower ext) supported_extensions)
                        then Err (ValueError
                                    ("Unsupported file extension: " ++ ext)%string)
                        else Ok (Some (ext, saved_as f ext))
                      else Ok None
                  | None => Ok None
                  end in
                match bound with
                | Err e => Raise e s
                | Ok None =>
                    Raise (UnboundLocalError
                             "local variable 'ext' referenced before assignment") s
                | Ok (Some (ext, f)) =>
                    let img :=
                      if lower ext =? ".png" then convert img "RGBA"
                      else convert img "RGB" in
                    let arr := np_array img in
                    if named then
                      match Image_save img f with
                      | Err e => Raise e s
                      | Ok _ => Return (Some arr) (perform (SaveImage f) s)
                      end
                    else Return (Some arr) s
                end
            end
        end
    | _ => Raise (PyException "TypeError" "a str is expected") s
    end.

(** Capture a screenshot from the frontend viewer. *)
Definition screenshot (filename : option string)
    (bg_color : option (list value)) (resolution : option (value * value))
    (arrivals : list value) (s : ViewerClient)
    : outcome (option ndarray) :=
  let data := [("viewer_id", VStr (viewer_id s))] in
  let data :=
    match bg_color with
    | Some c => set data "bg_color" (VList c)
    | None => data
    end in
  let data :=
    match resolution with
    | Some (w, h) => set (set data "width" w) "height" h
    | None => data
    end in
  bind (emit_state_request
          [("event", VStr "request_screenshot");
           ("viewer_id", VStr (viewer_id s));
           ("data", VDict data)] s)
    (fun _ s =>
       let (signalled, s) := wait "screenshot" arrivals s in
       if signalled
       then decode_screenshot (get (_request_data s) "screenshot") filename s
       else Return None s).

(** The attributes [BaseViewer.__init__] and [ViewerClient.__init__]
    set, for a session whose [viewer_id] is settled; [store] is the
    namespaces of the process, [__main__] first. *)
Definition new_client (viewer_id : string) (interactive_console : bool)
    (store : heap) : ViewerClient :=
  {| objects := [];
     ui_controls := [];
     _print_buffer := "";
     _capture_prints_enabled := false;
     _console_scope_globals := None;
     _console_scope_locals := None;
     viewer_id := viewer_id;
     interactive_console_enabled := interactive_console;
     _console_disabled_warning_emitted := false;
     _request_threads := map (fun k => (k, false)) _request_events;
     _request_data := map (fun k => (k, VNone)) _request_events;
     namespaces := store;
     uuid_calls := 0;
     effects := [] |}.

End Viewer.

(* ===================================================================== *)
(** ** Vocabulary of the properties *)
(* ===================================================================== *)

Section Vocabulary.
Context {entities : Entities} {parse : Parse} {capture : PrintCapture}
        {materials : Materials} {entropy : Entropy}
        {interp : Interpreter} {imaging : Imaging}.

(** The trace [handle_request_state] leaves. *)
Definition resync_trace (s : ViewerClient) : list effect :=
  [ Emit "console_meta" [("enabled", VBool (interactive_console_enabled s))];
    EmitWithFallback "set_camera"
      [("camera", as_list (VDict DEFAULT_CAMERA_STATE))] ]
  ++ map EmitAddGeometry
       (filter (fun obj => hasattr obj "to_dict") (values (objects s)))
  ++ map EmitAddControl
       (filter (fun c => hasattr c "to_dict") (values (ui_controls s)))
  ++ (if truthy (VStr (_print_buffer s))
      then [EmitConsoleOutput (split_text_to_segments (_print_buffer s))]
      else []).

(** The transport delivering messages one after the other.  An exception
    of a handler stays on the transport thread; the session goes on from
    the state the handler left. *)
Fixpoint deliver (msgs : list (inbound * value)) (s : ViewerClient)
    : ViewerClient :=
  match msgs with
  | [] => s
  | (ev, data) :: msgs' => deliver msgs' (state_of (dispatch ev data s))
  end.

(** A [console_command] or [console_complete] message addressed to the
    session. *)
Definition console_request (s : ViewerClient) (m : inbound * value) : bool :=
  match m with
  | (console_command, VDict d) | (console_complete, VDict d) =>
      negb (foreign d s)
  | _ => false
  end.

(** What the first console request to a disabled console sends back. *)
Definition disabled_warning_output : effect :=
  EmitConsoleOutput
    (map (default_color "yellow")
       (split_text_to_segments console_disabled_warning)).

(** The public calls that register an entity. *)
Inductive add_call : Type :=
| AddMesh (name : option string) (kwargs : dict)
| AddAnimatedMesh (name : option string) (kwargs : dict)
| AddPoints (name : option string) (kwargs : dict)
| AddArrows (name : option string) (kwargs : dict)
| AddSlider (name : string) (kwargs : dict)
| AddButton (name : string) (kwargs : dict)
| AddDownloadButton (name : string) (kwargs : dict)
| AddLabel (name : option string) (kwargs : dict)
| AddCheckbox (name : string) (kwargs : dict)
| AddDropdown (name : string) (kwargs : dict)
| AddColorPicker (name : string) (kwargs : dict)
| AddPlotly (spec : value) (name : string).

Definition call (c : add_call) (s : ViewerClient) : outcome entity :=
  match c with
  | AddMesh n k => add_mesh n k s
  | AddAnimatedMesh n k => add_animated_mesh n k s
  | AddPoints n k => add_points n k s
  | AddArrows n k => add_arrows n k s
  | AddSlider n k => slider n k s
  | AddButton n k => button n k s
  | AddDownloadButton n k => download_button n k s
  | AddLabel n k => label n k s
  | AddCheckbox n k => checkbox n k s
  | AddDropdown n k => dropdown n k s
  | AddColorPicker n k => color_picker n k s
  | AddPlotly spec n => add_plotly spec n s
  end.

(** A sequence of registrations: the entities the calls returned, in call
    order, and the session they leave. *)
Fixpoint register (calls : list add_call) (s : ViewerClient)
    : list entity * ViewerClient :=
  match calls with
  | [] => ([], s)
  | c :: calls' =>
      match call c s with
      | Return e s' =>
          let (es, s'') := register calls' s' in (e :: es, s'')
      | Raise _ s' => ([], s')
      end
  end.

Definition is_geometry (e : entity) : bool :=
  match ent_class e with
  | Mesh | AnimatedMesh | Points | Arrows => true
  | _ => false
  end.

Definition is_control (e : entity) : bool := negb (is_geometry e).

Definition ent_name (e : entity) : string :=
  match get (ent_attrs e) "name" with
  | VStr n => n
  | _ => ""
  end.

(** The console part of a resync. *)
Definition replay (s : ViewerClient) : list effect :=
  if truthy (VStr (_print_buffer s))
  then [EmitConsoleOutput (split_text_to_segments (_print_buffer s))]
  else [].

(** A reply that answers the pending request of [kind]: addressed to the
    session, its event naming the kind. *)
Definition fulfils (kind : string) (s : ViewerClient) (data : value) : bool :=
  match data with
  | VDict d =>
      negb (foreign d s)
      && match event_basename (get d "event") with
         | Ok basename => (basename =? kind)%string
         | Err _ => false
         end
  | _ => false
  end.

Definition unanswered (kind : string) (s : ViewerClient)
    (arrivals : list value) : bool :=
  forallb (fun data => negb (fulfils kind s data)) arrivals.

Definition reply_payload (data : value) : value :=
  match data with
  | VDict d => get d "data"
  | _ => VNone
  end.

(** The slot of [kind] is idle: no completion signal, no result. *)
Definition idle (kind : string) (s : ViewerClient) : bool :=
  negb (is_set kind s) && is_None (get (_request_data s) kind).

(** The emission of one console text by [_emit_console_text]: nothing for
    an empty text, else its segments, those without a colour of their own
    in the given one. *)
Definition said (text : string) (color : option string) : list effect :=
  if truthy (VStr text)
  then [EmitConsoleOutput
          match color with
          | Some c => map (default_color c) (split_text_to_segments text)
          | None => split_text_to_segments text
          end]
  else [].

(** What user code writes while it runs when output is not redirected. *)
Definition live (capture_output : bool) (r : run) : list effect :=
  if capture_output then []
  else (if truthy (VStr (run_stdout r)) then [WriteStdout (run_stdout r)] else [])
       ++ (if truthy (VStr (run_stderr r)) then [WriteStderr (run_stderr r)] else []).

(** What is flushed to the console after the run when output is
    redirected. *)
Definition captured (capture_output : bool) (r : run) : list effect :=
  if capture_output
  then said (run_stdout r) None ++ said (run_stderr r) (Some "red")
  else [].

(** The reply to a completion request. *)
Definition listing (completions : list string) : list effect :=
  match completions with
  | [] => said ("(no completions)" ++ newline)%string (Some "yellow")
  | _ => said (join ", " completions ++ newline)%string None
  end.

Definition string_lt (a b : string) : Prop := String.compare a b = Lt.

End Vocabulary.

(* ===================================================================== *)
(** ** A small instance of the collaborators

    Enough of each collaborator to run the handlers on concrete messages:
    an interpreter for integer literals, names, [+] and assignment, an
    image type that only remembers its mode, identity conversions. *)
(* ===================================================================== *)

Module Demo.

Inductive token : Type :=
| TNum (z : Z)
| TName (x : string)
| TPlus
| TAssign.

Inductive expr : Type :=
| Num (z : Z)
| Name (x : string)
| Add (a b : expr).

Inductive stmt : Type :=
| Expr (e : expr)
| Assign (x : string) (e : expr).

Fixpoint decimal (s : string) (acc : Z) : Z :=
  match s with
  | "" => acc
  | String c s' => decimal s' (acc * 10 + Z.of_nat (nat_of_ascii c - 48))%Z
  end.

(** The token of a finished word, if it is one. *)
Definition word (w : string) : option (list token) :=
  if (w =? "")%string then Some []
  else if all_chars is_digit w then Some [TNum (decimal w 0)]
  else if match_identifier w then Some [TName w]
  else None.

Fixpoint lex (s : string) (w : string) : option (list token) :=
  match s with
  | "" => word w
  | String c s' =>
      if is_ident_char c then lex s' (w ++ String c "")%string
      else
        match word w, lex s' "" with
        | Some t, Some ts =>
            if (c =? " ")%char then Some (t ++ ts)
            else if (c =? "+")%char then Some (t ++ TPlus :: ts)
            else if (c =? "=")%char then Some (t ++ TAssign :: ts)
            else None
        | _, _ => None
        end
  end.

Definition atom (t : token) : option expr :=
  match t with
  | TNum z => Some (Num z)
  | TName x => Some (Name x)
  | _ => None
  end.

Fixpoint parse_sum (lhs : expr) (ts : list token) : option expr :=
  match ts with
  | [] => Some lhs
  | TPlus :: t :: ts' =>
      match atom t with
      | Some rhs => parse_sum (Add lhs rhs) ts'
      | None => None
      end
  | _ => None
  end.

Definition parse_expr (ts : list token) : option expr :=
  match ts with
  | t :: ts' =>
      match atom t with
      | Some lhs => parse_sum lhs ts'
      | None => None
      end
  | [] => None
  end.

Definition parse_stmt (ts : list token) : option stmt :=
  match ts with
  | TName x :: TAssign :: ts' => option_map (Assign x) (parse_expr ts')
  | _ => option_map Expr (parse_expr ts)
  end.

Definition demo_compile (source : string) (mode : compile_mode)
    : result stmt :=
  let parsed :=
    match lex source "", mode with
    | Some ts, EvalMode => option_map Expr (parse_expr ts)
    | Some ts, ExecMode => parse_stmt ts
    | None, _ => None
    end in
  match parsed with
  | Some c => Ok c
  | None => Err (SyntaxError "invalid syntax")
  end.

Definition attributes (v : value) : dict :=
  match v with
  | VDict d => d
  | VObj _ fields => fields
  | _ => []
  end.

(** Name resolution: locals, globals, built-ins. *)
Definition resolve (h : heap) (g l : addr) (x : string) : result value :=
  match lookup (namespace h l) x with
  | Some v => Ok v
  | None =>
      match lookup (namespace h g) x with
      | Some v => Ok v
      | None =>
          match lookup (attributes (get (namespace h g) "__builtins__")) x with
          | Some v => Ok v
          | None => Err (PyException "NameError"
                           ("name '" ++ x ++ "' is not defined")%string)
          end
      end
  end.

Fixpoint value_of (h : heap) (g l : addr) (e : expr) : result value :=
  match e with
  | Num z => Ok (VInt z)
  | Name x => resolve h g l x
  | Add a b =>
      match value_of h g l a, value_of h g l b with
      | Ok (VInt x), Ok (VInt y) => Ok (VInt (x + y))
      | Err e, _ => Err e
      | _, Err e => Err e
      | _, _ => Err (PyException "TypeError" "unsupported operand type(s) for +")
      end
  end.

Definition quiet (r : result value) (h : heap) : run :=
  {| run_result := r; run_heap := h; run_stdout := ""; run_stderr := "" |}.

Definition demo_eval (c : stmt) (h : heap) (g l : addr) : run :=
  match c with
  | Expr e => quiet (value_of h g l e) h
  | Assign _ _ => quiet (Err (PyException "TypeError" "not an expression")) h
  end.

Definition demo_exec (c : stmt) (h : heap) (g l : addr) : run :=
  match c with
  | Expr e =>
      match value_of h g l e with
      | Ok _ => quiet (Ok VNone) h
      | Err e => quiet (Err e) h
      end
  | Assign x e =>
      match value_of h g l e with
      | Ok v => quiet (Ok VNone) (heap_store h l (set (namespace h l) x v))
      | Err e => quiet (Err e) h
      end
  end.

Definition demo_eval_source (source : string) (h : heap) (g l : addr) : run :=
  match demo_compile source EvalMode with
  | Ok c => demo_eval c h g l
  | Err e => quiet (Err e) h
  end.

Definition demo_repr (v : value) : string :=
  match v with
  | VNone => "None"
  | VBool true => "True"
  | VBool false => "False"
  | VInt z => repr_int z
  | VStr s => ("'" ++ s ++ "'")%string
  | _ => "<object>"
  end.

Definition exn_class (e : exn) : string :=
  match e with
  | SyntaxError _ => "SyntaxError"
  | ValueError _ => "ValueError"
  | AttributeError _ => "AttributeError"
  | UnboundLocalError _ => "UnboundLocalError"
  | PyException cls _ | PyBaseException cls _ => cls
  end.

Definition exn_text (e : exn) : string :=
  match e with
  | SyntaxError m | ValueError m | AttributeError m | UnboundLocalError m => m
  | PyException _ m | PyBaseException _ m => m
  end.

Definition demo_format_exc (e : exn) : string :=
  ("Traceback (most recent call last):" ++ newline
     ++ exn_class e ++ ": " ++ exn_text e ++ newline)%string.

Definition builtin (name : string) : string * value :=
  (name, VObj "builtin_function_or_method" []).

Definition demo_builtins : value :=
  VObj "module" (map builtin ["abs"; "len"; "print"; "property"; "range"]).

#[export] Instance demo_interpreter : Interpreter :=
  {| code := stmt;
     compile := demo_compile;
     eval := demo_eval;
     exec := demo_exec;
     eval_source := demo_eval_source;
     dir := fun _ v => keys (attributes v);
     repr := demo_repr;
     str := demo_repr;
     format_exc := demo_format_exc;
     builtins_module := demo_builtins |}.

#[export] Instance demo_entities : Entities :=
  {| class_attrs := fun _ => ["to_dict"] |}.

#[export] Instance demo_parse : Parse :=
  {| as_array := fun v => v; as_list := fun v => v |}.

#[export] Instance demo_capture : PrintCapture :=
  {| split_text_to_segments :=
       fun text => [[("text", VStr text); ("color", VNone)]] |}.

#[export] Instance demo_materials : Materials :=
  {| create_material_from_dict :=
       fun d =>
         if eq_str (get d "type") "MeshStandardMaterial"
         then Ok (VObj "MeshStandardMaterial" d)
         else Err (ValueError "Unknown material type") |}.

#[export] Instance demo_entropy : Entropy :=
  {| uuid4_hex := fun n => ("5f3a9c0e" ++ repr_int (Z.of_nat n))%string |}.

(** An image is its mode; its pixel array has one channel per band. *)
Definition bands (mode : string) : nat :=
  if (mode =? "RGBA")%string then 4
  else if (mode =? "RGB")%string then 3
  else 1.

#[export] Instance demo_imaging : Imaging :=
  {| image := string;
     ndarray := nat;
     b64decode := fun data => Ok data;
     Image_open := fun _ => Ok "P";
     convert := fun _ mode => mode;
     np_array := bands;
     Image_save := fun _ _ => Ok tt;
     channels := fun arr => arr |}.

(** A session with the console off and one with the console on, each on
    an empty [__main__]. *)
Definition quiet_session : ViewerClient := new_client "viewer_5f3a9c0e" false [[]].
Definition console_session : ViewerClient := new_client "viewer_5f3a9c0e" true [[]].

Definition message (fields : dict) : value :=
  VDict (("viewer_id", VStr "viewer_5f3a9c0e") :: fields).

Definition stranger (fields : dict) : value :=
  VDict (("viewer_id", VStr "viewer_00000000") :: fields).

Definition command (text : string) : value :=
  message [("command", VStr text)].

(** A scene: a mesh with a material attribute, a point cloud without
    one, a slider and a label. *)
Definition scene_calls : list add_call :=
  [ AddMesh (Some "bunny") [("visible", VBool true); ("material", VNone)];
    AddSlider "speed" [("initial", VInt 1)];
    AddPoints (Some "cloud") [("visible", VBool true); ("size", VInt 2)];
    AddLabel None [("text", VStr "frame")] ].

Definition scene : ViewerClient := snd (register scene_calls quiet_session).

Definition glass : dict := [("type", VStr "Glass"); ("opacity", VInt 1)].

(** An update of [name]: a material that cannot be rebuilt, and the
    visibility. *)
Definition restyle (name : string) : dict :=
  [ ("viewer_id", VStr "viewer_5f3a9c0e");
    ("id", VStr name);
    ("updates", VDict [("material", VDict glass); ("visible", VBool false)]) ].

Definition camera_reply : value :=
  message [("event", VStr "request_camera_info");
           ("data", VDict [("fov", VInt 50)])].

Definition selection_reply : value :=
  message [("event", VStr "request_selected_object"); ("data", VStr "bunny")].

Definition screenshot_reply : value :=
  message [("event", VStr "request_screenshot");
           ("data", VStr "data:image/png;base64,iVBORw0KGgo=")].

(** The one segment the demo splitter makes of a text. *)
Definition said_plainly (text : string) : effect :=
  EmitConsoleOutput [[("text", VStr text); ("color", VNone)]].

Definition said_in (color text : string) : effect :=
  EmitConsoleOutput [[("text", VStr text); ("color", VStr color)]].

(** A console session whose [__main__] binds [np] to a module object. *)
Definition numeric_session : ViewerClient :=
  new_client "viewer_5f3a9c0e" true
    [[("np", VObj "module"
               [("__name__", VStr "numpy"); ("log", VNone);
                ("linalg", VNone); ("zeros", VNone)])]].

End Demo.

(* ===================================================================== *)
(** ** The rest of [viewer.py] and [ui/plot_helpers.py] *)
(* ===================================================================== *)

(** [numpy.asarray], as [look_at] uses it. *)
Class Arrays : Type := {
  np_asarray : value -> value
}.

Section ViewerRest.
Context {entities : Entities} {parse : Parse} {capture : PrintCapture}
        {materials : Materials} {entropy : Entropy}
        {interp : Interpreter} {imaging : Imaging} {arrays : Arrays}.

(** Update the viewer camera: [kwargs] without its [None] values goes out
    under the key [camera]. *)
Definition set_camera (kwargs : dict) (s : ViewerClient) : outcome unit :=
  let payload := filter (fun kv => negb (is_None (snd kv))) kwargs in
  let payload := as_list (VDict payload) in
  Return tt (perform (EmitWithFallback "set_camera" [("camera", payload)]) s).

(** Position the camera and look at [target]. *)
Definition look_at (position target : value) (s : ViewerClient)
    : outcome unit :=
  let position := np_asarray position in
  let target := np_asarray target in
  set_camera [("position", position); ("target", target)] s.

(** The two URLs [ViewerClient.__init__] computes from [server_url] once
    [viewer_id] is settled: the one handed to [RemoteSocketIO] and the one
    kept as [self.server_url]. *)
Definition server_urls (server_url : option string) (viewer_id : string)
    : string * string :=
  let server_url :=
    match server_url with
    | Some u =>
        if negb (truthy (VStr u)) then "http://localhost:8080"
        else if negb (startswith u "http://" || startswith u "https://")
        then ("http://" ++ u)%string
        else u
    | None => "http://localhost:8080"
    end in
  let base_url := server_url in
  let server_url :=
    if truthy (VStr viewer_id) && negb (has_char "?" server_url)
    then (server_url ++ "?viewer_id=" ++ viewer_id)%string
    else server_url in
  (server_url, fst (split_first "?" base_url)).

(** [ViewerClient.__init__] without a headless browser: the identity is
    the given one or a synthesized one, the URL is announced on the
    standard output, the attributes are set. *)
Definition client_init (server_url viewer_id : option string)
    (interactive_console : bool) (store : heap) : ViewerClient :=
  let given :=
    match viewer_id with
    | Some v => truthy (VStr v)
    | None => false
    end in
  let viewer_id :=
    match viewer_id with
    | Some v =>
        if truthy (VStr v) then v
        else ("viewer_" ++ substring 0 8 (uuid4_hex 0))%string
    | None => ("viewer_" ++ substring 0 8 (uuid4_hex 0))%string
    end in
  let s := new_client viewer_id interactive_console store in
  let s := if given then s else with_uuid_calls 1 s in
  perform (PrintLine ("Creating client connecting to: "
                        ++ fst (server_urls server_url viewer_id))%string) s.

Definition console_enabled_banner : string :=
  ("[Panopti] Interactive console ENABLED. Commands typed in the frontend "
   ++ "can execute arbitrary Python code in this process.")%string.

(** Connect to an existing panopti server.  [caller] is the pair
    [f_globals], [f_locals] of the calling frame, when there is one. *)
Definition connect (server_url viewer_id : option string)
    (interactive_console : bool) (caller : option (addr * addr))
    (store : heap) : outcome unit :=
  let viewer := client_init server_url viewer_id interactive_console store in
  bind (match caller with
        | Some (g, l) => set_console_scope (Some g) (Some l) viewer
        | None => Return tt viewer
        end)
    (fun _ viewer =>
       if interactive_console then
         let viewer := perform (PrintLine console_enabled_banner) viewer in
         _emit_console_text (console_enabled_banner ++ newline)%string
           (Some "yellow") viewer
       else Return tt viewer).

End ViewerRest.

(** [ui/plot_helpers.py], on the integers the histogram hands to it. *)
Module PlotHelpers.

Definition COMPACT_HEIGHT : Z := 125.

(** Round up to nearest greater multiple of base:
    [int(np.ceil(val / base)) * base if val > 0 else base], for an integer
    [val] and a positive integer [base] small enough for the float
    quotient to round to the ceiling of the exact one. *)
Definition nice_ceil (val base : Z) : Z :=
  if (0 <? val)%Z then (- ((- val) / base) * base)%Z else base.

(** [np.max(counts)]; an empty array has no maximum. *)
Definition np_max (counts : list Z) : result Z :=
  match counts with
  | [] => Err (ValueError "zero-size array to reduction operation maximum")
  | c :: cs => Ok (fold_left Z.max cs c)
  end.

(** What [create_histogram] decides itself about the figure: the range of
    the y axis and the height; bars, colours and grid go to plotly as
    they are. *)
Record layout : Type := {
  yaxis_range : Z * Z;
  height : option Z
}.

(** [create_histogram], [np_histogram bins] standing for the counts of
    [np.histogram(data.ravel(), bins=bins)]. *)
Definition create_histogram (np_histogram : Z -> list Z) (bins : Z)
    (compact : bool) : result layout :=
  if negb (1 <=? bins)%Z
  then Err (PyException "AssertionError" "bins must be at least 1")
  else
    let counts := np_histogram bins in
    match np_max counts with
    | Err e => Err e
    | Ok maxcount =>
        let nice_max := (nice_ceil maxcount 5 + 1)%Z in
        Ok {| yaxis_range := (0%Z, nice_max);
              height := if compact then Some COMPACT_HEIGHT else None |}
    end.

End PlotHelpers.

(* ===================================================================== *)
(** ** Vocabulary of the further properties *)
(* ===================================================================== *)

Section VocabularyRest.
Context {entities : Entities} {parse : Parse} {capture : PrintCapture}
        {materials : Materials} {entropy : Entropy}
        {interp : Interpreter} {imaging : Imaging}.

(** The two ways application code puts text on the console. *)
Inductive console_op : Type :=
| Say (text : string) (color : option string)
| Colored (text : string) (color : value) (end_ : string).

Definition run_op (op : console_op) (s : ViewerClient) : outcome unit :=
  match op with
  | Say text color => _emit_console_text text color s
  | Colored text color end_ => print_colored text color end_ s
  end.

Fixpoint run_ops (ops : list console_op) (s : ViewerClient) : ViewerClient :=
  match ops with
  | [] => s
  | op :: ops' => run_ops ops' (state_of (run_op op s))
  end.

(** The text of the operations that goes through [_emit_console_text]. *)
Fixpoint retained (ops : list console_op) : string :=
  match ops with
  | [] => ""
  | Say text _ :: ops' => (text ++ retained ops')%string
  | Colored _ _ _ :: ops' => retained ops'
  end.

(** A heartbeat addressed to the session. *)
Definition own_heartbeat (s : ViewerClient) (data : value) : bool :=
  match data with
  | VDict d => negb (foreign d s)
  | _ => false
  end.

Definition heartbeat_reply (s : ViewerClient) : effect :=
  Emit "client_heartbeat" [("viewer_id", VStr (viewer_id s))].

(** The transport handing a run of [viewer_heartbeat] messages over. *)
Definition beat (msgs : list value) (s : ViewerClient) : ViewerClient :=
  deliver (map (fun data => (viewer_heartbeat, data)) msgs) s.

(** The text a console handler works on: [str(command or '')]. *)
Definition command_source (command : value) : string :=
  to_str (py_or command (VStr "")).

(** The registry an entity belongs to. *)
Definition registry_of (geometry : bool)
    : ViewerClient -> list (string * entity) :=
  if geometry then objects else ui_controls.

(** Each entity sits under its own name. *)
Definition self_named (registry : list (string * entity)) : Prop :=
  Forall (fun entry => ent_name (snd entry) = fst entry) registry.

(** What the update loop assigns for a key: the typed material when the
    value is a tagged material dict that decodes, the value otherwise. *)
Definition stored (key : string) (v : value) : value :=
  match v with
  | VDict d =>
      if (key =? "material")%string && contains d "type" then
        match create_material_from_dict d with
        | Ok material_obj => material_obj
        | Err _ => v
        end
      else v
  | _ => v
  end.

End VocabularyRest.

(** Further inputs for the small instance. *)
Module DemoRest.
Import Demo.

#[export] Instance demo_arrays : Arrays :=
  {| np_asarray := fun v => v |}.

(** A material decoder interrupted from the keyboard. *)
Definition interrupted : Materials :=
  {| create_material_from_dict :=
       fun _ => Err (PyBaseException "KeyboardInterrupt" "") |}.

(** A mesh added twice under one name, then a slider. *)
Definition repainted_calls : list add_call :=
  [ AddMesh (Some "bunny") [("visible", VBool true)];
    AddMesh (Some "bunny") [("visible", VBool false)];
    AddSlider "speed" [("initial", VInt 1)] ].

Definition knob_event (control : string) : dict :=
  [ ("viewer_id", VStr "viewer_5f3a9c0e");
    ("controlId", VStr control);
    ("value", VInt 3) ].

Definition standard : dict :=
  [("type", VStr "MeshStandardMaterial"); ("opacity", VInt 1)].

(** An update of [name] with the given keys. *)
Definition update_of (name : string) (updates : dict) : dict :=
  [ ("viewer_id", VStr "viewer_5f3a9c0e");
    ("id", VStr name);
    ("updates", VDict updates) ].

Definition foreign_traffic : list (inbound * value) :=
  [ (update_object,
     stranger [("id", VStr "bunny");
               ("updates", VDict [("visible", VBool false)])]);
    (console_command, stranger [("command", VStr "1+1")]);
    (viewer_heartbeat, stranger []) ].

End DemoRest.

(* ===================================================================== *)
(** ** Properties *)
(* ===================================================================== *)

(** *** The string and dictionary helpers on examples *)

Example replace_prefix :
  replace "request_camera_info" "request_" "" = "camera_info".
Proof. reflexivity. Qed.

Example replace_inner :
  replace "camera_request_info" "request_" "" = "camera_info".
Proof. reflexivity. Qed.

Example rsplit_example : rsplit_last "." "np.linalg.no" = ("np.linalg", "no").
Proof. reflexivity. Qed.

Example splitext_examples :
  splitext_ext "out/shot.PNG" = ".PNG" /\ splitext_ext "shot" = "" /\
  splitext_ext ".hidden" = "" /\ splitext_ext "a.b/shot" = "" /\
  splitext_ext "a.tar.gz" = ".gz".
Proof. repeat split; reflexivity. Qed.

Example search_examples :
  search_trailing_identifier "foo(ba" = Some "ba" /\
  search_trailing_identifier "12ab3" = Some "ab3" /\
  search_trailing_identifier "123" = None.
Proof. repeat split; reflexivity. Qed.

Example sorted_set_example :
  sorted_set ["print"; "abs"; "print"; "all"] = ["abs"; "all"; "print"].
Proof. reflexivity. Qed.

(** *** Dictionaries *)

Section DictFacts.
Context {V : Type}.
Implicit Types (d : list (string * V)) (k : string) (v : V).

Lemma lookup_set_same d k v : lookup (set d k v) k = Some v.
Proof.
  induction d as [|[k' v'] d IH]; simpl.
  - now rewrite String.eqb_refl.
  - destruct (k' =? k)%string eqn:E; simpl.
    + now rewrite String.eqb_refl.
    + now rewrite E.
Qed.

Lemma lookup_set_other d k k' v :
  k <> k' -> lookup (set d k v) k' = lookup d k'.
Proof.
  intros Hne.
  induction d as [|[k0 v0] d IH]; simpl.
  - destruct (String.eqb_spec k k'); [contradiction | reflexivity].
  - destruct (String.eqb_spec k0 k) as [->|Hk]; simpl.
    + destruct (String.eqb_spec k k'); [contradiction | reflexivity].
    + now rewrite IH.
Qed.

Lemma lookup_none_keys d k : lookup d k = None <-> ~ In k (keys d).
Proof.
  induction d as [|[k' v'] d IH]; simpl.
  - tauto.
  - destruct (String.eqb_spec k' k) as [->|Hk].
    + split; [discriminate | intros H; exfalso; apply H; now left].
    + rewrite IH. split.
      * intros H [Heq|Hin]; [now apply Hk | now apply H].
      * intros H Hin. apply H. now right.
Qed.

Lemma contains_lookup d k :
  contains d k = match lookup d k with Some _ => true | None => false end.
Proof.
  induction d as [|[k' v'] d IH]; simpl; [reflexivity|].
  destruct (k' =? k)%string; simpl; [reflexivity | exact IH].
Qed.

Lemma set_fresh d k v : ~ In k (keys d) -> set d k v = d ++ [(k, v)].
Proof.
  induction d as [|[k' v'] d IH]; simpl; intros H; [reflexivity|].
  destruct (String.eqb_spec k' k) as [->|Hk].
  - exfalso. apply H. now left.
  - rewrite IH; [reflexivity | tauto].
Qed.

Lemma keys_set d k v : forall x, In x (keys (set d k v)) <-> x = k \/ In x (keys d).
Proof.
  intros x. induction d as [|[k' v'] d IH]; simpl.
  - intuition congruence.
  - destruct (String.eqb_spec k' k) as [->|Hk]; simpl.
    + intuition congruence.
    + rewrite IH. intuition congruence.
Qed.
End DictFacts.

Lemma mem_In x l : mem x l = true <-> In x l.
Proof.
  unfold mem. rewrite existsb_exists. split.
  - intros [y [Hy E]]. apply String.eqb_eq in E. now subst.
  - intros H. exists x. split; [exact H | apply String.eqb_refl].
Qed.

Lemma eq_str_refl s : eq_str (VStr s) s = true.
Proof. apply String.eqb_refl. Qed.

(** *** The trace *)

Lemma effects_perform_all log s :
  effects (perform_all log s) = effects s ++ log.
Proof.
  unfold perform_all. revert s.
  induction log as [|e log IH]; intros s; simpl.
  - now rewrite app_nil_r.
  - rewrite IH. simpl. now rewrite <- app_assoc.
Qed.

Lemma perform_all_app l1 l2 s :
  perform_all (l1 ++ l2) s = perform_all l2 (perform_all l1 s).
Proof. unfold perform_all. apply fold_left_app. Qed.

Lemma fold_perform_if {A : Type} (p : A -> bool) (f : A -> effect) l s :
  fold_left (fun s x => if p x then perform (f x) s else s) l s
  = perform_all (map f (filter p l)) s.
Proof.
  revert s. induction l as [|x l IH]; intros s; simpl; [reflexivity|].
  rewrite IH. destruct (p x); reflexivity.
Qed.

Lemma perform_all_frame log s :
  objects (perform_all log s) = objects s /\
  ui_controls (perform_all log s) = ui_controls s /\
  _print_buffer (perform_all log s) = _print_buffer s /\
  viewer_id (perform_all log s) = viewer_id s /\
  namespaces (perform_all log s) = namespaces s /\
  _request_threads (perform_all log s) = _request_threads s /\
  _request_data (perform_all log s) = _request_data s.
Proof.
  unfold perform_all. revert s.
  induction log as [|e log IH]; intros s; simpl.
  - repeat split.
  - destruct (IH (perform e s)) as (H1 & H2 & H3 & H4 & H5 & H6 & H7).
    rewrite H1, H2, H3, H4, H5, H6, H7. repeat split.
Qed.

Lemma objects_perform_all log s : objects (perform_all log s) = objects s.
Proof. apply perform_all_frame. Qed.

Lemma ui_controls_perform_all log s :
  ui_controls (perform_all log s) = ui_controls s.
Proof. apply perform_all_frame. Qed.

Lemma print_buffer_perform_all log s :
  _print_buffer (perform_all log s) = _print_buffer s.
Proof. apply perform_all_frame. Qed.

Section Properties.
Context {entities : Entities} {parse : Parse} {capture : PrintCapture}
        {materials : Materials} {entropy : Entropy}
        {interp : Interpreter} {imaging : Imaging}.

(** **** Identity filtering *)

(** Every handler that reads [viewer_id] drops a message addressed to
    another session: the session, its trace included, is as before. *)
Lemma foreign_message_is_dropped (ev : inbound) (data : dict) (s : ViewerClient) :
  ev <> request_state_from_client ->
  foreign data s = true ->
  dispatch ev (VDict data) s = Return tt s.
Proof.
  intros Hev Hf.
  destruct ev; simpl; try rewrite Hf; try reflexivity.
  contradiction.
Qed.

Lemma handle_request_state_trace (data : value) (s : ViewerClient) :
  handle_request_state data s = Return tt (perform_all (resync_trace s) s).
Proof.
  unfold handle_request_state, resync_trace.
  rewrite !fold_perform_if.
  set (meta := Emit "console_meta" _).
  set (cam := EmitWithFallback "set_camera" _).
  change (perform cam (perform meta s)) with (perform_all [meta; cam] s).
  rewrite !ui_controls_perform_all, !print_buffer_perform_all.
  rewrite !objects_perform_all.
  rewrite <- !perform_all_app.
  destruct (truthy (VStr (_print_buffer s))).
  - change (perform ?e ?x) with (perform_all [e] x).
    rewrite <- perform_all_app. now rewrite <- ?app_assoc.
  - now rewrite app_nil_r, <- ?app_assoc.
Qed.

(** C1 (the code departs from the claim).  The claim: a message whose
    [viewer_id] is not the session's is a no-op for every inbound
    handler, the full-state resync request included.
    [handle_request_state] never reads its argument: whatever the
    message says about [viewer_id], the session answers with the
    console flag and the camera reset, followed by the rest of the
    resync.  See [foreign_message_is_dropped] for the other handlers. *)
Theorem resync_request_is_answered_for_any_viewer_id
    (data : value) (s : ViewerClient) :
  exists rest,
    effects (state_of (dispatch request_state_from_client data s)) =
    effects s
    ++ Emit "console_meta" [("enabled", VBool (interactive_console_enabled s))]
    :: EmitWithFallback "set_camera"
         [("camera", as_list (VDict DEFAULT_CAMERA_STATE))]
    :: rest.
Proof.
  cbn [dispatch]. rewrite handle_request_state_trace. cbn [state_of].
  rewrite effects_perform_all. unfold resync_trace.
  eexists. reflexivity.
Qed.

(** **** Updates of scene objects *)

(** A registered object: the loop runs, the registry holds the updated
    object, and the [update_object] event is the last effect. *)
Lemma update_applies_then_triggers (data : dict) (s : ViewerClient) :
  foreign data s = false ->
  forall name obj updates obj' log,
    get data "id" = VStr name ->
    lookup (objects s) name = Some obj ->
    as_array (get_default data "updates" (VDict [])) = VDict updates ->
    apply_updates updates obj [] = (obj', log, None) ->
    exists s',
      handle_update_object (VDict data) s = Return tt s' /\
      lookup (objects s') name = Some obj' /\
      effects s' =
        effects s ++ log
        ++ [Trigger "update_object" [VStr name; VDict updates]].
Proof.
  intros Hf name obj updates obj' log Hid Hobj Hupd Happ.
  unfold handle_update_object, with_message.
  rewrite Hf, Hid. cbn [registry_get]. rewrite Hobj, Hupd, Happ.
  eexists. split; [reflexivity|]. split.
  - cbn [perform objects]. rewrite objects_perform_all.
    cbn [with_objects objects]. apply lookup_set_same.
  - cbn [perform effects]. rewrite effects_perform_all.
    cbn [with_objects effects]. now rewrite <- app_assoc.
Qed.


(** **** State requests *)

Lemma foreign_own (fields : dict) (s : ViewerClient) :
  foreign (("viewer_id", VStr (viewer_id s)) :: fields) s = false.
Proof.
  unfold foreign, get. cbn [lookup String.eqb Ascii.eqb Bool.eqb].
  now rewrite eq_str_refl.
Qed.

(** A request or a reply whose event, once every [request_] in it is
    deleted, is none of the three kinds raises [ValueError] and leaves
    the session as it was. *)
Lemma unknown_basename_fails_fast (data : dict) (event : string)
    (s : ViewerClient) :
  foreign data s = false ->
  get data "event" = VStr event ->
  mem (replace event "request_" "") _request_events = false ->
  handle_state_request (VDict data) s
    = Raise (unknown_state_request (VStr event)) s /\
  emit_state_request data s = Raise (unknown_state_request (VStr event)) s.
Proof.
  intros Hf He Hm.
  unfold handle_state_request, emit_state_request, with_message.
  rewrite Hf, He. cbn [event_basename]. rewrite Hm. now split.
Qed.

(** C9 (the code departs from the claim).  The claim: a state request
    whose event, with the [request_] prefix removed, is not one of the
    three kinds makes both [emit_state_request] and
    [handle_state_request] raise [ValueError] and touches no slot.  The
    event [camera_request_info] has no such prefix and names no kind,
    yet [str.replace] deletes the inner [request_]: the reply fulfils
    the [camera_info] slot and the request resets it and goes out on
    the transport. *)
Theorem inner_request_marker_is_accepted (payload : value) (s : ViewerClient) :
  let data := [("viewer_id", VStr (viewer_id s));
               ("event", VStr "camera_request_info");
               ("data", payload)] in
  handle_state_request (VDict data) s
    = Return tt
        (with_request (set (_request_threads s) "camera_info" true)
           (set (_request_data s) "camera_info" payload) s) /\
  emit_state_request data s
    = Return tt
        (perform
           (Emit "relay_state_request"
              [("event", VStr "camera_request_info");
               ("viewer_id", VStr (viewer_id s));
               ("data", as_list payload)])
           (with_request (set (_request_threads s) "camera_info" false)
              (set (_request_data s) "camera_info" VNone) s)).
Proof.
  cbn zeta.
  unfold handle_state_request, emit_state_request, with_message.
  rewrite foreign_own. split; reflexivity.
Qed.

(** **** The disabled console *)

Lemma warn_once_first (s : ViewerClient) :
  _console_disabled_warning_emitted s = false ->
  _warn_console_disabled_once s
  = Return tt
      (perform disabled_warning_output
         (with_print_buffer (_print_buffer s ++ console_disabled_warning)%string
            (with_warning_emitted true s))).
Proof.
  intros H. unfold _warn_console_disabled_once. rewrite H. reflexivity.
Qed.

Lemma disabled_console_request (m : inbound * value) (s : ViewerClient) :
  interactive_console_enabled s = false ->
  console_request s m = true ->
  dispatch (fst m) (snd m) s = _warn_console_disabled_once s.
Proof.
  intros Hoff Hm. destruct m as [ev data].
  destruct ev; try discriminate; destruct data; try discriminate;
    cbn [fst snd dispatch handle_console_command handle_console_complete];
    cbn [console_request] in Hm; apply negb_true_iff in Hm;
    now rewrite Hm, Hoff.
Qed.

Lemma console_request_same_viewer (s s' : ViewerClient)
    (msgs : list (inbound * value)) :
  viewer_id s' = viewer_id s ->
  forallb (console_request s') msgs = forallb (console_request s) msgs.
Proof.
  intros Hid. induction msgs as [|[ev data] msgs IH]; [reflexivity|].
  cbn [forallb]. rewrite IH. f_equal.
  unfold console_request, foreign. now rewrite Hid.
Qed.

Lemma deliver_after_warning (msgs : list (inbound * value)) (s : ViewerClient) :
  interactive_console_enabled s = false ->
  _console_disabled_warning_emitted s = true ->
  forallb (console_request s) msgs = true ->
  deliver msgs s = s.
Proof.
  intros Hoff Hw. induction msgs as [|[ev data] msgs IH]; intros Hall.
  - reflexivity.
  - cbn [forallb] in Hall. apply andb_true_iff in Hall as [Hm Hrest].
    cbn [deliver].
    pose proof (disabled_console_request (ev, data) s Hoff Hm) as Hd.
    cbn [fst snd] in Hd. rewrite Hd.
    unfold _warn_console_disabled_once. rewrite Hw. cbn [state_of].
    now apply IH.
Qed.


(** **** Registration order and resync *)

Definition named (es : list entity) : list (string * entity) :=
  map (fun e => (ent_name e, e)) es.

Lemma values_named es : values (named es) = es.
Proof.
  unfold values, named. rewrite map_map. cbn [snd]. apply map_id.
Qed.

Lemma keys_named es : keys (named es) = map ent_name es.
Proof. unfold keys, named. now rewrite map_map. Qed.

(** One registration: the call returns, stores the entity it returns
    under the entity's name in its own registry, and leaves the other
    registry and the console buffer alone. *)
Lemma call_returns (c : add_call) (s : ViewerClient) :
  exists e s1,
    call c s = Return e s1 /\
    _print_buffer s1 = _print_buffer s /\
    ((is_geometry e = true /\
      objects s1 = set (objects s) (ent_name e) e /\
      ui_controls s1 = ui_controls s) \/
     (is_geometry e = false /\
      ui_controls s1 = set (ui_controls s) (ent_name e) e /\
      objects s1 = objects s)).
Proof.
  destruct c as [[n|] k|[n|] k|[n|] k|[n|] k|n k|n k|n k|[n|] k|n k|n k|n k|spec n];
    eexists; eexists; (split; [reflexivity|]); (split; [reflexivity|]);
    solve [left; repeat split | right; repeat split].
Qed.

Lemma register_keeps_order (calls : list add_call) :
  forall (s : ViewerClient) added s',
    register calls s = (added, s') ->
    NoDup (keys (objects s) ++ map ent_name (filter is_geometry added)) ->
    NoDup (keys (ui_controls s) ++ map ent_name (filter is_control added)) ->
    objects s' = objects s ++ named (filter is_geometry added) /\
    ui_controls s' = ui_controls s ++ named (filter is_control added) /\
    _print_buffer s' = _print_buffer s.
Proof.
  induction calls as [|c calls IH]; intros s added s' Hreg Hgeo Hctl.
  - injection Hreg as <- <-. cbn. now rewrite !app_nil_r.
  - cbn [register] in Hreg.
    destruct (call_returns c s) as (e & s1 & Hcall & Hbuf & Hcase).
    rewrite Hcall in Hreg.
    destruct (register calls s1) as [es s2] eqn:Hrest.
    injection Hreg as <- <-.
    unfold is_control in *. cbn [filter] in *.
    destruct Hcase as [(Hg & Hobj & Hui) | (Hg & Hui & Hobj)];
      rewrite Hg in *; cbn [negb map] in *.
    + assert (Hfresh : ~ In (ent_name e) (keys (objects s))).
      { intros Hin. apply NoDup_remove_2 in Hgeo. apply Hgeo.
        apply in_or_app. now left. }
      rewrite (set_fresh _ _ _ Hfresh) in Hobj.
      destruct (IH s1 es s2 Hrest) as (H1 & H2 & H3).
      * rewrite Hobj. unfold keys. rewrite map_app. cbn [map fst].
        now rewrite <- app_assoc.
      * now rewrite Hui.
      * rewrite H1, H2, H3, Hobj, Hui, Hbuf. cbn [named map].
        now rewrite <- app_assoc.
    + assert (Hfresh : ~ In (ent_name e) (keys (ui_controls s))).
      { intros Hin. apply NoDup_remove_2 in Hctl. apply Hctl.
        apply in_or_app. now left. }
      rewrite (set_fresh _ _ _ Hfresh) in Hui.
      destruct (IH s1 es s2 Hrest) as (H1 & H2 & H3).
      * now rewrite Hobj.
      * rewrite Hui. unfold keys. rewrite map_app. cbn [map fst].
        now rewrite <- app_assoc.
      * rewrite H1, H2, H3, Hobj, Hui, Hbuf. cbn [named map].
        now rewrite <- app_assoc.
Qed.

Lemma filter_all {A : Type} (p : A -> bool) (l : list A) :
  (forall x, p x = true) -> filter p l = l.
Proof.
  intros H. induction l as [|x l IH]; cbn; [reflexivity|].
  now rewrite H, IH.
Qed.

(** C4: after any sequence of add calls on a fresh registry whose names
    are distinct within the scene objects and within the controls, and
    whatever the console buffer holds, a full-state resync request emits,
    in this order: the console-enabled flag, [set_camera] with the default
    camera, one add-geometry per scene object in registration order, one
    add-control per control in registration order, and the retained
    console buffer as segments (nothing for an empty buffer). *)
Theorem resync_replays_registration_order
    (calls : list add_call) (data : value) (s : ViewerClient) :
  objects s = [] ->
  ui_controls s = [] ->
  (forall cls, In "to_dict" (class_attrs cls)) ->
  NoDup (map ent_name (filter is_geometry (fst (register calls s)))) ->
  NoDup (map ent_name (filter is_control (fst (register calls s)))) ->
  let added := fst (register calls s) in
  let s' := snd (register calls s) in
  exists s'',
    handle_request_state data s' = Return tt s'' /\
    effects s'' =
      effects s'
      ++ [ Emit "console_meta"
             [("enabled", VBool (interactive_console_enabled s'))];
           EmitWithFallback "set_camera"
             [("camera",
               as_list (VDict [ ("projection_mode", VStr "perspective");
                                ("fov", VInt 50);
                                ("near", VFloat (1 # 10)%Q);
                                ("far", VInt 1000) ]))] ]
      ++ map EmitAddGeometry (filter is_geometry added)
      ++ map EmitAddControl (filter is_control added)
      ++ replay s'.
Proof.
  intros Hobj Hui Hdict Hgeo Hctl added s'.
  destruct (register calls s) as [es s2] eqn:Hreg.
  cbn [fst snd] in *. subst added s'.
  destruct (register_keeps_order calls s es s2 Hreg) as (H1 & H2 & _).
  { now rewrite Hobj. }
  { now rewrite Hui. }
  rewrite Hobj in H1. rewrite Hui in H2. cbn [app] in H1, H2.
  rewrite handle_request_state_trace.
  eexists. split; [reflexivity|].
  rewrite effects_perform_all. unfold resync_trace, replay.
  rewrite H1, H2, !values_named.
  assert (Hall : forall e, hasattr e "to_dict" = true).
  { intros e. unfold hasattr. apply orb_true_iff. right.
    apply mem_In, Hdict. }
  rewrite !(filter_all _ _ Hall). reflexivity.
Qed.

(** **** Material updates *)

Definition material_warning (e : exn) : effect :=
  PrintLine ("Warning: Could not recreate material from dict: "
               ++ exn_message e)%string.

Lemma hasattr_setattr (obj : entity) (k : string) (v : value) (k' : string) :
  hasattr obj k' = true -> hasattr (setattr obj k v) k' = true.
Proof.
  unfold hasattr, setattr. cbn [ent_attrs ent_class].
  rewrite !orb_true_iff. intros [H|H]; [left | now right].
  rewrite contains_lookup in *.
  destruct (String.eqb_spec k k') as [->|Hne].
  - now rewrite lookup_set_same.
  - now rewrite lookup_set_other.
Qed.

(** The loop over the items of an update in which decoding the material,
    where it is attempted, fails with an [Exception]: it runs to the end,
    every key the object has takes the value the update gives it, every
    other attribute stays, and the failed decoding is reported. *)
Lemma apply_updates_failed_material (items : dict) :
  forall (obj : entity) (log : list effect),
    NoDup (keys items) ->
    (forall d, lookup items "material" = Some (VDict d) ->
               contains d "type" = true ->
               exists e, create_material_from_dict d = Err e /\
                         is_Exception e = true) ->
    exists obj' log',
      apply_updates items obj log = (obj', log ++ log', None) /\
      (forall k v, lookup items k = Some v -> hasattr obj k = true ->
                   lookup (ent_attrs obj') k = Some v) /\
      (forall k, lookup items k = None ->
                 lookup (ent_attrs obj') k = lookup (ent_attrs obj) k) /\
      (forall d e, lookup items "material" = Some (VDict d) ->
                   contains d "type" = true ->
                   hasattr obj "material" = true ->
                   create_material_from_dict d = Err e ->
                   In (material_warning e) log').
Proof.
  induction items as [|[k0 v0] items IH]; intros obj log Hnd Hfail.
  - exists obj, []. cbn. rewrite app_nil_r.
    repeat split; try discriminate; auto.
  - cbn [keys map fst] in Hnd. apply NoDup_cons_iff in Hnd as [Hk0 Hnd].
    fold (keys items) in Hk0, Hnd.
    assert (Hnone : lookup items k0 = None) by now apply lookup_none_keys.
    assert (Hfail' : forall d, lookup items "material" = Some (VDict d) ->
                       contains d "type" = true ->
                       exists e, create_material_from_dict d = Err e /\
                                 is_Exception e = true).
    { intros d Hl Ht. apply Hfail; [|exact Ht]. cbn [lookup].
      destruct (String.eqb_spec k0 "material") as [->|_]; [congruence | exact Hl]. }
    (* what the step does to the object and to the log *)
    assert (Hstep : exists obj1 log1,
               (forall l, apply_updates ((k0, v0) :: items) obj l
                          = apply_updates items obj1 (l ++ log1)) /\
               (hasattr obj k0 = true -> obj1 = setattr obj k0 v0) /\
               (hasattr obj k0 = false -> obj1 = obj) /\
               (forall d e, k0 = "material" -> v0 = VDict d ->
                            contains d "type" = true ->
                            hasattr obj "material" = true ->
                            create_material_from_dict d = Err e ->
                            In (material_warning e) log1)).
    { cbn [apply_updates].
      destruct (hasattr obj k0) eqn:Hh.
      - destruct v0 as [|b|z|q|t|l|d|cls fields];
          try (eexists (setattr obj k0 _), []; repeat split;
               [intros l'; now rewrite app_nil_r | congruence
               | intros; discriminate]).
        destruct ((k0 =? "material")%string && contains d "type") eqn:Hm.
        + apply andb_true_iff in Hm as [Hk Ht]. apply String.eqb_eq in Hk.
          destruct (Hfail d) as (e & He & Hex).
          { cbn [lookup]. subst k0. now rewrite String.eqb_refl. }
          { exact Ht. }
          rewrite He, Hex.
          exists (setattr obj k0 (VDict d)), [material_warning e].
          repeat split; try congruence.
          intros d' e' _ Hd' _ _ He'. injection Hd' as <-.
          rewrite He in He'. injection He' as <-. now left.
        + exists (setattr obj k0 (VDict d)), []. repeat split.
          * intros l. now rewrite app_nil_r.
          * congruence.
          * intros d' e' Hk Hd' Ht _ _. injection Hd' as <-.
            subst k0. cbn in Hm. rewrite Ht in Hm. discriminate.
      - exists obj, []. repeat split.
        + intros l. now rewrite app_nil_r.
        + discriminate.
        + intros d e -> _ _ Hh'. congruence. }
    destruct Hstep as (obj1 & log1 & Hrun & Hset & Hkeep & Hwarn).
    destruct (IH obj1 (log ++ log1) Hnd Hfail')
      as (obj' & log' & Happ & Hval & Hrest & Hw).
    exists obj', (log1 ++ log'). rewrite Hrun, Happ, app_assoc.
    split; [reflexivity|]. split; [|split].
    + intros k v Hl Hh. cbn [lookup] in Hl.
      destruct (String.eqb_spec k0 k) as [->|Hne].
      * injection Hl as <-. rewrite (Hrest k Hnone), (Hset Hh).
        cbn [setattr ent_attrs]. apply lookup_set_same.
      * apply Hval; [exact Hl|].
        destruct (hasattr obj k0) eqn:Hh0.
        -- rewrite (Hset eq_refl). now apply hasattr_setattr.
        -- now rewrite (Hkeep eq_refl).
    + intros k Hl. cbn [lookup] in Hl.
      destruct (String.eqb_spec k0 k) as [->|Hne]; [discriminate|].
      rewrite (Hrest k Hl).
      destruct (hasattr obj k0) eqn:Hh0.
      * rewrite (Hset eq_refl). cbn [setattr ent_attrs].
        now apply lookup_set_other.
      * now rewrite (Hkeep eq_refl).
    + intros d e Hl Ht Hh He. apply in_or_app. cbn [lookup] in Hl.
      destruct (String.eqb_spec k0 "material") as [->|Hne].
      * left. injection Hl as ->. now apply (Hwarn d e).
      * right. apply (Hw d e Hl Ht); [|exact He].
        destruct (hasattr obj k0) eqn:Hh0.
        -- rewrite (Hset eq_refl). now apply hasattr_setattr.
        -- now rewrite (Hkeep eq_refl).
Qed.


(** **** Pull calls *)

Lemma is_set_with_request kind b t d s :
  is_set kind (with_request (set t kind b) d s) = b.
Proof. unfold is_set. cbn [with_request _request_threads]. now rewrite lookup_set_same. Qed.

Lemma is_set_perform kind e s : is_set kind (perform e s) = is_set kind s.
Proof. reflexivity. Qed.

Lemma fulfils_same_viewer kind s s' data :
  viewer_id s' = viewer_id s -> fulfils kind s' data = fulfils kind s data.
Proof.
  intros H. destruct data; try reflexivity.
  unfold fulfils, foreign. now rewrite H.
Qed.

(** A reply that does not answer the request of [kind] leaves the flag of
    [kind] and the identity of the session alone. *)
Lemma other_reply_keeps_slot kind data s :
  fulfils kind s data = false ->
  viewer_id (state_of (handle_state_request data s)) = viewer_id s /\
  is_set kind (state_of (handle_state_request data s)) = is_set kind s.
Proof.
  intros Hno. destruct data as [|b|z|q|t|l|d|cls fields];
    try (split; reflexivity).
  unfold handle_state_request, with_message. cbn [fulfils] in Hno.
  destruct (foreign d s); [split; reflexivity|]. cbn [negb andb] in Hno.
  destruct (event_basename (get d "event")) as [basename|e];
    [|split; reflexivity].
  destruct (mem basename _request_events); [|split; reflexivity].
  cbn [negb state_of]. split; [reflexivity|].
  unfold is_set. cbn [with_request _request_threads].
  rewrite lookup_set_other; [reflexivity|].
  intros ->. now rewrite String.eqb_refl in Hno.
Qed.

(** A reply that answers the request of [kind] sets the flag and stores
    its payload. *)
Lemma reply_fills_slot kind data s :
  mem kind _request_events = true ->
  fulfils kind s data = true ->
  state_of (handle_state_request data s)
  = with_request (set (_request_threads s) kind true)
      (set (_request_data s) kind (reply_payload data)) s.
Proof.
  intros Hk Hyes. destruct data as [|b|z|q|t|l|d|cls fields];
    try discriminate.
  unfold handle_state_request, with_message. cbn [fulfils] in Hyes.
  apply andb_true_iff in Hyes as [Hf Hb]. apply negb_true_iff in Hf.
  rewrite Hf.
  destruct (event_basename (get d "event")) as [basename|e]; [|discriminate].
  apply String.eqb_eq in Hb. subst basename. rewrite Hk. reflexivity.
Qed.

Lemma unanswered_same_viewer kind s s' arrivals :
  viewer_id s' = viewer_id s ->
  unanswered kind s' arrivals = unanswered kind s arrivals.
Proof.
  intros H. induction arrivals as [|x arrivals IH]; [reflexivity|].
  cbn [unanswered forallb]. fold (unanswered kind s' arrivals).
  fold (unanswered kind s arrivals).
  now rewrite IH, (fulfils_same_viewer _ _ _ _ H).
Qed.

Lemma wait_times_out kind arrivals :
  forall s,
    is_set kind s = false ->
    unanswered kind s arrivals = true ->
    exists s', wait kind arrivals s = (false, s').
Proof.
  induction arrivals as [|data arrivals IH]; intros s Hclear Hnone.
  - exists s. cbn. now rewrite Hclear.
  - cbn [wait]. rewrite Hclear.
    cbn [unanswered forallb] in Hnone.
    apply andb_true_iff in Hnone as [Hd Hrest]. apply negb_true_iff in Hd.
    destruct (other_reply_keeps_slot kind data s Hd) as [Hid Hflag].
    apply IH.
    + now rewrite Hflag.
    + now rewrite (unanswered_same_viewer _ _ _ _ Hid).
Qed.

Lemma wait_wakes_on_reply kind pre data post :
  forall s,
    mem kind _request_events = true ->
    is_set kind s = false ->
    unanswered kind s pre = true ->
    fulfils kind s data = true ->
    exists s',
      wait kind (pre ++ data :: post) s = (true, s') /\
      is_set kind s' = true /\
      get (_request_data s') kind = reply_payload data.
Proof.
  intros s Hk. revert s.
  induction pre as [|x pre IH]; intros s Hclear Hnone Hyes.
  - cbn [app wait]. rewrite Hclear.
    rewrite (reply_fills_slot kind data s Hk Hyes).
    set (s' := with_request _ _ s).
    assert (Hs : is_set kind s' = true) by apply is_set_with_request.
    assert (Hw : wait kind post s' = (true, s')).
    { destruct post; cbn [wait]; now rewrite Hs. }
    exists s'. split; [exact Hw|]. split; [exact Hs|].
    unfold get. subst s'. cbn [with_request _request_data].
    now rewrite lookup_set_same.
  - cbn [app wait]. rewrite Hclear.
    cbn [unanswered forallb] in Hnone.
    apply andb_true_iff in Hnone as [Hd Hrest]. apply negb_true_iff in Hd.
    destruct (other_reply_keeps_slot kind x s Hd) as [Hid Hflag].
    apply IH.
    + now rewrite Hflag.
    + now rewrite (unanswered_same_viewer _ _ _ _ Hid).
    + now rewrite (fulfils_same_viewer _ _ _ _ Hid).
Qed.

(** A request for one of the three kinds resets the slot of the kind and
    goes out on the transport. *)
Lemma emit_known_request (s : ViewerClient) (event kind : string) (extra : dict) :
  replace event "request_" "" = kind ->
  mem kind _request_events = true ->
  emit_state_request
    (("event", VStr event) :: ("viewer_id", VStr (viewer_id s)) :: extra) s
  = Return tt
      (perform
         (Emit "relay_state_request"
            [("event", VStr event);
             ("viewer_id", VStr (viewer_id s));
             ("data", as_list (get_default extra "data" (VDict [])))])
         (with_request (set (_request_threads s) kind false)
            (set (_request_data s) kind VNone) s)).
Proof.
  intros Hb Hk. unfold emit_state_request.
  assert (Hf : foreign (("event", VStr event)
                          :: ("viewer_id", VStr (viewer_id s)) :: extra) s = false).
  { unfold foreign, get. cbn [lookup String.eqb Ascii.eqb Bool.eqb].
    now rewrite eq_str_refl. }
  rewrite Hf. unfold get. cbn [lookup String.eqb Ascii.eqb Bool.eqb].
  cbn [event_basename]. rewrite Hb, Hk. reflexivity.
Qed.

Lemma decode_screenshot_keeps_slots img_b64 filename s :
  _request_threads (state_of (decode_screenshot img_b64 filename s))
    = _request_threads s /\
  _request_data (state_of (decode_screenshot img_b64 filename s))
    = _request_data s.
Proof.
  unfold decode_screenshot.
  repeat match goal with
         | |- context [match ?x with _ => _ end] => destruct x
         end; split; reflexivity.
Qed.

(** [screenshot] on an answered request: the reply is handed to
    [decode_screenshot], in a session whose slot is still fulfilled. *)
Lemma screenshot_decodes_reply
    (s : ViewerClient) (pre : list value) (data : value) (post : list value)
    (filename : option string) (bg_color : option (list value))
    (resolution : option (value * value)) :
  unanswered "screenshot" s pre = true ->
  fulfils "screenshot" s data = true ->
  exists s1,
    screenshot filename bg_color resolution (pre ++ data :: post) s
      = decode_screenshot (reply_payload data) filename s1 /\
    is_set "screenshot" s1 = true /\
    get (_request_data s1) "screenshot" = reply_payload data.
Proof.
  intros Hu Hy. unfold screenshot.
  rewrite (emit_known_request s _ "screenshot" [("data", _)]) by reflexivity.
  cbn [bind].
  match goal with
  | |- context [wait ?k ?a ?s1] =>
      destruct (wait_wakes_on_reply k pre data post s1) as (s' & -> & Hs & Hd)
  end.
  - reflexivity.
  - rewrite is_set_perform. apply is_set_with_request.
  - now rewrite (unanswered_same_viewer _ s).
  - now rewrite (fulfils_same_viewer _ s).
  - exists s'. now rewrite Hd.
Qed.

Lemma screenshot_times_out
    (s : ViewerClient) (arrivals : list value)
    (filename : option string) (bg_color : option (list value))
    (resolution : option (value * value)) :
  unanswered "screenshot" s arrivals = true ->
  exists s', screenshot filename bg_color resolution arrivals s = Return None s'.
Proof.
  intros Hu. unfold screenshot.
  rewrite (emit_known_request s _ "screenshot" [("data", _)]) by reflexivity.
  cbn [bind].
  match goal with
  | |- context [wait ?k ?a ?s1] =>
      destruct (wait_times_out k a s1) as (s' & ->)
  end.
  - rewrite is_set_perform. apply is_set_with_request.
  - now rewrite (unanswered_same_viewer _ s).
  - now exists s'.
Qed.


(** **** Screenshots *)

Lemma truthy_nonempty (x : string) : x <> "" -> truthy (VStr x) = true.
Proof.
  intros H. cbn [truthy]. apply negb_true_iff.
  now destruct (String.eqb_spec x "").
Qed.

(** Among the replies delivered there is a first one that answers. *)
Lemma first_answer kind s arrivals :
  unanswered kind s arrivals = false ->
  exists pre data post,
    arrivals = pre ++ data :: post /\
    unanswered kind s pre = true /\
    fulfils kind s data = true.
Proof.
  induction arrivals as [|x arrivals IH]; [discriminate|].
  cbn [unanswered forallb]. fold (unanswered kind s arrivals).
  destruct (fulfils kind s x) eqn:Hx; cbn [negb andb].
  - intros _. now exists [], x, arrivals.
  - intros H. destruct (IH H) as (pre & data & post & -> & Hu & Hy).
    exists (x :: pre), data, post. repeat split; [|exact Hy].
    cbn [unanswered forallb]. now rewrite Hx.
Qed.

(** A reply that is there and not empty never decodes to [None]. *)
Lemma decode_screenshot_none img_b64 filename s s' :
  decode_screenshot img_b64 filename s = Return None s' ->
  truthy img_b64 = false.
Proof.
  unfold decode_screenshot.
  destruct (truthy img_b64); [|reflexivity]. cbn [negb].
  repeat match goal with
         | |- context [match ?x with _ => _ end] => destruct x
         end; discriminate.
Qed.

(** The slip the amended C3 leaves out: without a file name (the default)
    a reply that decodes raises [UnboundLocalError] where the pixel format
    is chosen, since [ext] is bound only under [if filename:]. *)
Lemma decode_without_filename_raises (img_b64 img_bytes : string) (img : image)
    (s : ViewerClient) :
  img_b64 <> "" ->
  b64decode (strip_header img_b64) = Ok img_bytes ->
  Image_open img_bytes = Ok img ->
  decode_screenshot (VStr img_b64) None s
  = Raise (UnboundLocalError
             "local variable 'ext' referenced before assignment") s.
Proof.
  intros Hne Hd Ho. unfold decode_screenshot.
  rewrite (truthy_nonempty _ Hne). cbn [negb]. now rewrite Hd, Ho.
Qed.


(** **** [sorted(set(...))] *)

Lemma string_lt_trans a b c : string_lt a b -> string_lt b c -> string_lt a c.
Proof.
  unfold string_lt. intros H1 H2.
  apply OrderedTypeEx.String_as_OT.cmp_lt in H1, H2.
  apply OrderedTypeEx.String_as_OT.cmp_lt.
  exact (OrderedTypeEx.String_as_OT.lt_trans _ _ _ H1 H2).
Qed.

Lemma compare_gt_lt a b : String.compare a b = Gt -> string_lt b a.
Proof.
  unfold string_lt. intros H. rewrite String.compare_antisym, H. reflexivity.
Qed.

Lemma insert_uniq_In x l y : In y (insert_uniq x l) <-> y = x \/ In y l.
Proof.
  induction l as [|z l IH]; cbn [insert_uniq].
  - cbn. intuition.
  - destruct (String.compare x z) eqn:E.
    + apply String.compare_eq_iff in E. subst z. cbn. intuition.
    + cbn. intuition.
    + cbn [In]. rewrite IH. intuition.
Qed.

Lemma sorted_set_In l y : In y (sorted_set l) <-> In y l.
Proof.
  induction l as [|x l IH]; cbn [sorted_set fold_right]; [reflexivity|].
  fold (sorted_set l). rewrite insert_uniq_In, IH. cbn. intuition.
Qed.

Lemma insert_uniq_sorted x l :
  StronglySorted string_lt l -> StronglySorted string_lt (insert_uniq x l).
Proof.
  induction l as [|z l IH]; intros Hs; cbn [insert_uniq].
  - repeat constructor.
  - apply StronglySorted_inv in Hs as [Hs Hz].
    destruct (String.compare x z) eqn:E.
    + now constructor.
    + constructor; [now constructor|].
      constructor; [exact E|].
      eapply Forall_impl; [|exact Hz].
      intros w Hw. now apply (string_lt_trans x z w).
    + constructor; [now apply IH|].
      apply Forall_forall. intros w Hw. apply insert_uniq_In in Hw as [->|Hw].
      * now apply compare_gt_lt.
      * rewrite Forall_forall in Hz. now apply Hz.
Qed.

(** The result of [sorted(set(l))] is strictly increasing, hence sorted
    and without repetition, and holds the names of [l]. *)
Lemma sorted_set_sorted l : StronglySorted string_lt (sorted_set l).
Proof.
  induction l as [|x l IH]; cbn [sorted_set fold_right]; [constructor|].
  now apply insert_uniq_sorted.
Qed.

(** **** The console *)

Lemma command_text (cmd : string) : to_str (py_or (VStr cmd) (VStr "")) = cmd.
Proof.
  unfold py_or. cbn [truthy].
  destruct (String.eqb_spec cmd "") as [->|_]; reflexivity.
Qed.

Lemma emit_console_text_trace text color s :
  exists s',
    _emit_console_text text color s = Return tt s' /\
    effects s' = effects s ++ said text color /\
    namespaces s' = namespaces s.
Proof.
  unfold _emit_console_text, said.
  destruct (truthy (VStr text)); cbn [negb]; eexists;
    (split; [reflexivity|]); split; try reflexivity.
  now rewrite app_nil_r.
Qed.

Lemma resolve_console_scope_returns s :
  exists g l s0,
    _resolve_console_scope s = Return (g, l) s0 /\
    effects s0 = effects s /\
    _capture_prints_enabled s0 = _capture_prints_enabled s.
Proof.
  unfold _resolve_console_scope.
  destruct (_console_scope_globals s) as [g|];
    [destruct (_console_scope_locals s) as [l|]|];
    match goal with
    | |- context [contains ?d ?k] => destruct (contains d k)
    end; do 3 eexists; repeat split.
Qed.

Lemma ran_trace what capture_output r s :
  effects (ran what capture_output r s)
    = effects s ++ [what] ++ live capture_output r /\
  namespaces (ran what capture_output r s) = run_heap r.
Proof.
  unfold ran, live.
  destruct capture_output; [split; reflexivity|].
  destruct (truthy (VStr (run_stdout r))), (truthy (VStr (run_stderr r)));
    cbn; rewrite <- ?app_assoc; split; reflexivity.
Qed.

Lemma flush_captured_trace capture_output r s :
  exists s',
    flush_captured capture_output r s = Return tt s' /\
    effects s' = effects s
                 ++ match r with
                    | Some r => captured capture_output r
                    | None => []
                    end /\
    namespaces s' = namespaces s.
Proof.
  unfold flush_captured, captured.
  destruct capture_output, r as [r|];
    try (exists s; rewrite app_nil_r; repeat split; reflexivity).
  destruct (truthy (VStr (run_stdout r))) eqn:Hout,
           (truthy (VStr (run_stderr r))) eqn:Herr.
  - destruct (emit_console_text_trace (run_stdout r) None s)
      as (s1 & -> & He1 & Hn1). cbn [bind].
    destruct (emit_console_text_trace (run_stderr r) (Some "red") s1)
      as (s2 & -> & He2 & Hn2).
    exists s2. split; [reflexivity|]. split; [|congruence].
    rewrite He2, He1. now rewrite <- app_assoc.
  - destruct (emit_console_text_trace (run_stdout r) None s)
      as (s1 & -> & He1 & Hn1). cbn [bind].
    exists s1. split; [reflexivity|]. split; [|congruence].
    rewrite He1. unfold said at 3. now rewrite Herr, app_nil_r.
  - cbn [bind].
    destruct (emit_console_text_trace (run_stderr r) (Some "red") s)
      as (s2 & -> & He2 & Hn2).
    exists s2. split; [reflexivity|]. split; [|congruence].
    rewrite He2. unfold said at 2. now rewrite Hout.
  - cbn [bind]. exists s. unfold said. rewrite Hout, Herr, app_nil_r.
    repeat split; reflexivity.
Qed.


Lemma emit_completion_list_trace completions s :
  exists s',
    _emit_completion_list completions s = Return tt s' /\
    effects s' = effects s ++ listing completions.
Proof.
  unfold _emit_completion_list, listing.
  destruct completions as [|c cs].
  - destruct (emit_console_text_trace ("(no completions)" ++ newline)%string
                (Some "yellow") s) as (s' & H1 & H2 & _).
    now exists s'.
  - destruct (emit_console_text_trace (join ", " (c :: cs) ++ newline)%string
                None s) as (s' & H1 & H2 & _).
    now exists s'.
Qed.


End Properties.

(* ===================================================================== *)
(** ** Further properties *)
(* ===================================================================== *)

Section MoreProperties.
Context {entities : Entities} {parse : Parse} {capture : PrintCapture}
        {materials : Materials} {entropy : Entropy}
        {interp : Interpreter} {imaging : Imaging} {arrays : Arrays}.

(** **** The registries *)

Lemma ent_name_new (cls : entity_class) (name : string) (kwargs : dict) :
  ent_name (new_entity cls (("name", VStr name) :: kwargs)) = name.
Proof. reflexivity. Qed.

Lemma keys_set_present {V : Type} (d : list (string * V)) k v :
  In k (keys d) -> keys (set d k v) = keys d.
Proof.
  induction d as [|[k' v'] d IH]; cbn [keys map fst set In]; [tauto|].
  intros Hin. destruct (String.eqb_spec k' k) as [->|Hne]; [reflexivity|].
  cbn [map fst]. f_equal. apply IH. destruct Hin; [contradiction|assumption].
Qed.

(** One add call, whatever it is: what it returns and what it leaves. *)
Lemma call_effect (c : add_call) (s : ViewerClient) :
  exists e s1,
    call c s = Return e s1 /\
    _print_buffer s1 = _print_buffer s /\
    ((is_geometry e = true /\
      objects s1 = set (objects s) (ent_name e) e /\
      ui_controls s1 = ui_controls s /\
      effects s1 = effects s ++ [EmitAddGeometry e]) \/
     (is_geometry e = false /\
      ui_controls s1 = set (ui_controls s) (ent_name e) e /\
      objects s1 = objects s /\
      effects s1 = effects s ++ [EmitAddControl e])).
Proof.
  destruct c as [[n|] k|[n|] k|[n|] k|[n|] k|n k|n k|n k|[n|] k|n k|n k|n k|spec n];
    eexists; eexists; (split; [reflexivity|]); (split; [reflexivity|]);
    solve [left; repeat split | right; repeat split].
Qed.


(** X2: registering under a name that is taken replaces the entity where
    it stands: the names of the registry, their order and their number
    are as before; a new name goes last. *)
Theorem readding_keeps_position (c : add_call) (s : ViewerClient) :
  exists e s',
    call c s = Return e s' /\
    let registry := if is_geometry e then objects else ui_controls in
    (In (ent_name e) (keys (registry s)) ->
     keys (registry s') = keys (registry s)) /\
    (~ In (ent_name e) (keys (registry s)) ->
     keys (registry s') = keys (registry s) ++ [ent_name e]).
Proof.
  destruct (call_effect c s) as (e & s1 & Hcall & _ & Hcase).
  exists e, s1. split; [exact Hcall|].
  destruct Hcase as [(Hg & Hobj & Hui & Heff) | (Hg & Hui & Hobj & Heff)];
    rewrite Hg; cbn zeta.
  - rewrite Hobj. split; intros H.
    + now apply keys_set_present.
    + rewrite (set_fresh _ _ _ H). unfold keys. now rewrite map_app.
  - rewrite Hui. split; intros H.
    + now apply keys_set_present.
    + rewrite (set_fresh _ _ _ H). unfold keys. now rewrite map_app.
Qed.

Lemma call_registers (c : add_call) (s : ViewerClient) :
  exists e s1,
    call c s = Return e s1 /\
    registry_of (is_geometry e) s1
      = set (registry_of (is_geometry e) s) (ent_name e) e /\
    registry_of (negb (is_geometry e)) s1
      = registry_of (negb (is_geometry e)) s.
Proof.
  destruct (call_effect c s) as (e & s1 & Hcall & _ & Hcase).
  exists e, s1. split; [exact Hcall|].
  destruct Hcase as [(Hg & Hobj & Hui & _) | (Hg & Hui & Hobj & _)];
    rewrite Hg; cbn [registry_of negb]; now split.
Qed.

(** Registrations under other names, or of the other kind, leave a name
    alone. *)
Lemma register_keeps_other (calls : list add_call) (geometry : bool)
    (n : string) :
  forall s,
    (forall e, In e (fst (register calls s)) ->
               is_geometry e = geometry -> ent_name e <> n) ->
    lookup (registry_of geometry (snd (register calls s))) n
    = lookup (registry_of geometry s) n.
Proof.
  induction calls as [|c calls IH]; intros s Hother; [reflexivity|].
  cbn [register] in *.
  destruct (call_registers c s) as (e & s1 & Hcall & Hreg & Hkeep).
  rewrite Hcall in *.
  destruct (register calls s1) as [es s2] eqn:Hrest. cbn [fst snd] in *.
  assert (Hes : lookup (registry_of geometry s2) n
                = lookup (registry_of geometry s1) n).
  { specialize (IH s1). rewrite Hrest in IH. cbn [fst snd] in IH.
    apply IH. intros e' Hin. apply Hother. now right. }
  rewrite Hes.
  destruct (Bool.bool_dec (is_geometry e) geometry) as [Hsame|Hdiff].
  - subst geometry. rewrite Hreg. apply lookup_set_other.
    apply Hother; [now left | reflexivity].
  - assert (Hneg : geometry = negb (is_geometry e))
      by (revert Hdiff; destruct geometry, (is_geometry e); cbn; intros;
          congruence).
    rewrite Hneg. now rewrite Hkeep.
Qed.

(** X3: the latest registration wins.  In any sequence of add calls, an
    entity that no later call of the same kind replaces under its name
    is the one its registry holds at the end. *)
Theorem last_registration_wins
    (calls : list add_call) (s : ViewerClient)
    (earlier later : list entity) (e : entity) :
  fst (register calls s) = earlier ++ e :: later ->
  (forall e', In e' later -> is_geometry e' = is_geometry e ->
              ent_name e' <> ent_name e) ->
  lookup (registry_of (is_geometry e) (snd (register calls s))) (ent_name e)
  = Some e.
Proof.
  revert s earlier.
  induction calls as [|c calls IH]; intros s earlier Hadded Hlater.
  - cbn in Hadded. now destruct earlier.
  - cbn [register] in *.
    destruct (call_registers c s) as (e0 & s1 & Hcall & Hreg & _).
    rewrite Hcall in *.
    destruct (register calls s1) as [es s2] eqn:Hrest. cbn [fst snd] in *.
    destruct earlier as [|p earlier]; cbn [app] in Hadded;
      injection Hadded as -> ->.
    + pose proof (register_keeps_other calls (is_geometry e) (ent_name e) s1)
        as Hk.
      rewrite Hrest in Hk. cbn [fst snd] in Hk. rewrite Hk by exact Hlater.
      rewrite Hreg. apply lookup_set_same.
    + specialize (IH s1 earlier). rewrite Hrest in IH. cbn [fst snd] in IH.
      now apply IH.
Qed.

Lemma keys_set_nodup {V : Type} (d : list (string * V)) k v :
  NoDup (keys d) -> NoDup (keys (set d k v)).
Proof.
  intros Hnd. destruct (in_dec string_dec k (keys d)) as [Hin|Hout].
  - now rewrite keys_set_present.
  - rewrite (set_fresh _ _ _ Hout). unfold keys. rewrite map_app.
    cbn [map fst]. apply NoDup_app_remove_l with (l := []).
    cbn [app]. fold (keys d).
    rewrite <- (rev_involutive (keys d ++ [k])).
    apply NoDup_rev. rewrite rev_app_distr. cbn [rev app].
    constructor.
    + now rewrite <- in_rev.
    + now apply NoDup_rev.
Qed.

Lemma set_self_named registry (e : entity) :
  self_named registry -> self_named (set registry (ent_name e) e).
Proof.
  unfold self_named.
  induction registry as [|[k v] registry IH]; intros H; cbn [set].
  - now repeat constructor.
  - apply Forall_cons_iff in H as [Hk Hrest].
    destruct (k =? ent_name e)%string.
    + now constructor.
    + constructor; [exact Hk | now apply IH].
Qed.

Lemma names_of_self_named registry :
  self_named registry -> map ent_name (values registry) = keys registry.
Proof.
  unfold self_named, values, keys.
  induction registry as [|[k v] registry IH]; intros H; [reflexivity|].
  apply Forall_cons_iff in H as [Hk Hrest]. cbn [map fst snd] in *.
  now rewrite Hk, IH.
Qed.

(** X4: the add calls keep the registries well formed: the names of each
    registry stay pairwise distinct and every entity stays stored under
    its own name, whatever names the calls repeat; the add messages of a
    later resync therefore never name an entity twice. *)
Theorem registration_keeps_names_distinct
    (calls : list add_call) (s : ViewerClient) :
  NoDup (keys (objects s)) ->
  NoDup (keys (ui_controls s)) ->
  self_named (objects s) ->
  self_named (ui_controls s) ->
  let s' := snd (register calls s) in
  NoDup (keys (objects s')) /\
  NoDup (keys (ui_controls s')) /\
  self_named (objects s') /\
  self_named (ui_controls s') /\
  NoDup (map ent_name (values (objects s'))) /\
  NoDup (map ent_name (values (ui_controls s'))).
Proof.
  revert s.
  assert (Hinv : forall s,
             NoDup (keys (objects s)) -> NoDup (keys (ui_controls s)) ->
             self_named (objects s) -> self_named (ui_controls s) ->
             NoDup (keys (objects (snd (register calls s)))) /\
             NoDup (keys (ui_controls (snd (register calls s)))) /\
             self_named (objects (snd (register calls s))) /\
             self_named (ui_controls (snd (register calls s)))).
  { induction calls as [|c calls IH]; intros s H1 H2 H3 H4; [now repeat split|].
    cbn [register].
    destruct (call_effect c s) as (e & s1 & Hcall & _ & Hcase).
    rewrite Hcall.
    destruct (register calls s1) as [es s2] eqn:Hrest. cbn [snd].
    specialize (IH s1). rewrite Hrest in IH. cbn [snd] in IH. apply IH;
      destruct Hcase as [(_ & Hobj & Hui & _) | (_ & Hui & Hobj & _)];
      rewrite ?Hobj, ?Hui;
      auto using keys_set_nodup, set_self_named. }
  intros s H1 H2 H3 H4 s'.
  destruct (Hinv s H1 H2 H3 H4) as (K1 & K2 & K3 & K4).
  subst s'. repeat split; auto.
  - now rewrite names_of_self_named.
  - now rewrite names_of_self_named.
Qed.

(** X5: scene objects shadow controls in [get]: when a mesh and a slider
    are registered under one name, in either order, [get] answers with
    the mesh, and the slider stays in its own registry. *)
Theorem get_prefers_scene_objects
    (n : string) (mesh_kwargs slider_kwargs : dict) (s : ViewerClient) :
  let mesh := new_entity Mesh (("name", VStr n) :: mesh_kwargs) in
  let control := new_entity Slider (("name", VStr n) :: slider_kwargs) in
  let s1 := state_of (slider n slider_kwargs
                        (state_of (add_mesh (Some n) mesh_kwargs s))) in
  let s2 := state_of (add_mesh (Some n) mesh_kwargs
                        (state_of (slider n slider_kwargs s))) in
  get_entity n s1 = Some mesh /\ lookup (ui_controls s1) n = Some control /\
  get_entity n s2 = Some mesh /\ lookup (ui_controls s2) n = Some control.
Proof.
  cbn zeta. unfold get_entity.
  cbn [slider add_mesh add_geometry _add_control bind state_of perform
       with_objects with_ui_controls objects ui_controls].
  rewrite !lookup_set_same. repeat split.
Qed.

(** **** Control events and heartbeats *)


Lemma heartbeat_step (data : value) (s : ViewerClient) :
  state_of (handle_heartbeat data s)
  = if own_heartbeat s data then perform (heartbeat_reply s) s else s.
Proof.
  destruct data; try reflexivity.
  unfold handle_heartbeat, with_message, own_heartbeat.
  now destruct (foreign d s).
Qed.

Lemma own_heartbeat_perform e s data :
  own_heartbeat (perform e s) data = own_heartbeat s data.
Proof. reflexivity. Qed.

(** X7: heartbeats are answered one for one.  Of any run of
    [viewer_heartbeat] messages, those addressed to the session get one
    [client_heartbeat] each, in order, carrying the session's identity;
    the others, malformed ones included, get nothing, and nothing but
    the trace changes. *)
Theorem heartbeats_are_answered_one_for_one
    (msgs : list value) (s : ViewerClient) :
  effects (beat msgs s)
  = effects s
    ++ map (fun _ => heartbeat_reply s) (filter (own_heartbeat s) msgs) /\
  objects (beat msgs s) = objects s /\
  ui_controls (beat msgs s) = ui_controls s /\
  _print_buffer (beat msgs s) = _print_buffer s /\
  _request_threads (beat msgs s) = _request_threads s /\
  _request_data (beat msgs s) = _request_data s /\
  namespaces (beat msgs s) = namespaces s.
Proof.
  unfold beat.
  assert (Hgen : forall s0,
             viewer_id s0 = viewer_id s ->
             effects (deliver (map (fun data => (viewer_heartbeat, data)) msgs) s0)
             = effects s0
               ++ map (fun _ => heartbeat_reply s) (filter (own_heartbeat s) msgs) /\
             objects (deliver (map (fun data => (viewer_heartbeat, data)) msgs) s0)
             = objects s0 /\
             ui_controls (deliver (map (fun data => (viewer_heartbeat, data)) msgs) s0)
             = ui_controls s0 /\
             _print_buffer (deliver (map (fun data => (viewer_heartbeat, data)) msgs) s0)
             = _print_buffer s0 /\
             _request_threads (deliver (map (fun data => (viewer_heartbeat, data)) msgs) s0)
             = _request_threads s0 /\
             _request_data (deliver (map (fun data => (viewer_heartbeat, data)) msgs) s0)
             = _request_data s0 /\
             namespaces (deliver (map (fun data => (viewer_heartbeat, data)) msgs) s0)
             = namespaces s0).
  { induction msgs as [|data msgs IH]; intros s0 Hid.
    - cbn. rewrite app_nil_r. now repeat split.
    - cbn [map deliver dispatch filter]. rewrite heartbeat_step.
      assert (Hown : own_heartbeat s0 data = own_heartbeat s data).
      { destruct data; try reflexivity. unfold own_heartbeat, foreign.
        now rewrite Hid. }
      assert (Hrep : heartbeat_reply s0 = heartbeat_reply s)
        by (unfold heartbeat_reply; now rewrite Hid).
      rewrite Hown, Hrep.
      destruct (own_heartbeat s data).
      + destruct (IH (perform (heartbeat_reply s) s0) Hid)
          as (H1 & H2 & H3 & H4 & H5 & H6 & H7).
        rewrite H1, H2, H3, H4, H5, H6, H7. cbn [perform effects map].
        rewrite <- app_assoc. now repeat split.
      + now apply IH. }
  now apply Hgen.
Qed.

(** **** Updates, further *)

Lemma hasattr_setattr_same (obj : entity) (k : string) (v : value) (k' : string) :
  hasattr obj k = true -> hasattr (setattr obj k v) k' = hasattr obj k'.
Proof.
  intros Hk. destruct (hasattr obj k') eqn:Hk'.
  - now apply hasattr_setattr.
  - unfold hasattr, setattr in *. cbn [ent_attrs ent_class].
    apply orb_false_iff in Hk' as [Hc Hm]. rewrite Hm, orb_false_r.
    rewrite contains_lookup in *.
    destruct (String.eqb_spec k k') as [->|Hne].
    + rewrite Hm, orb_false_r in Hk.
      destruct (lookup (ent_attrs obj) k'); discriminate.
    + now rewrite lookup_set_other.
Qed.

(** The loop keeps the class of the object and the set of attributes it
    has, and only ever adds warnings to the log. *)
Lemma apply_updates_keeps_shape (items : dict) :
  forall (obj : entity) (log : list effect),
    let '(obj', log', _) := apply_updates items obj log in
    ent_class obj' = ent_class obj /\
    (forall k, hasattr obj' k = hasattr obj k) /\
    exists warnings,
      log' = log ++ warnings /\
      Forall (fun w => exists e, w = material_warning e) warnings.
Proof.
  induction items as [|[k0 v0] items IH]; intros obj log.
  - cbn. repeat split. exists []. now rewrite app_nil_r.
  - cbn [apply_updates].
    assert (Hset : forall v l,
               hasattr obj k0 = true ->
               let '(obj', log', _) := apply_updates items (setattr obj k0 v) l in
               ent_class obj' = ent_class obj /\
               (forall k, hasattr obj' k = hasattr obj k) /\
               exists warnings,
                 log' = l ++ warnings /\
                 Forall (fun w => exists e, w = material_warning e) warnings).
    { intros v l Hh. specialize (IH (setattr obj k0 v) l).
      destruct (apply_updates items (setattr obj k0 v) l) as [[obj' log'] r].
      destruct IH as (Hc & Ha & Hw). repeat split; auto.
      intros k. rewrite Ha. now apply hasattr_setattr_same. }
    destruct (hasattr obj k0) eqn:Hh; [|apply IH].
    destruct v0 as [|b|z|q|t|l|d|cls fields]; try (now apply Hset).
    destruct ((k0 =? "material")%string && contains d "type");
      [|now apply Hset].
    destruct (create_material_from_dict d) as [m|e]; [now apply Hset|].
    destruct (is_Exception e).
    + specialize (Hset (VDict d) (log ++ [material_warning e]) eq_refl).
      unfold material_warning in *.
      destruct (apply_updates items (setattr obj k0 (VDict d)) _)
        as [[obj' log'] r].
      destruct Hset as (Hc & Ha & warnings & -> & Hw).
      repeat split; auto.
      exists (PrintLine ("Warning: Could not recreate material from dict: "
                           ++ exn_message e)%string :: warnings).
      rewrite <- app_assoc. split; [reflexivity|].
      constructor; [now exists e | exact Hw].
    + repeat split. exists []. now rewrite app_nil_r.
Qed.

Lemma keys_set_lookup {V : Type} (d : list (string * V)) k v v' :
  lookup d k = Some v' -> keys (set d k v) = keys d.
Proof.
  intros H. apply keys_set_present.
  destruct (in_dec string_dec k (keys d)) as [Hin|Hout]; [exact Hin|].
  apply lookup_none_keys in Hout. congruence.
Qed.


Lemma apply_updates_app (a b : dict) :
  forall (obj : entity) (log : list effect),
    apply_updates (a ++ b) obj log =
      match apply_updates a obj log with
      | (obj', log', None) => apply_updates b obj' log'
      | stopped => stopped
      end.
Proof.
  induction a as [|[k0 v0] a IH]; intros obj log; [reflexivity|].
  cbn [app apply_updates].
  destruct (hasattr obj k0); [|apply IH].
  destruct v0 as [|b0|z|q|t|l|d|cls fields]; try apply IH.
  destruct ((k0 =? "material")%string && contains d "type"); [|apply IH].
  destruct (create_material_from_dict d) as [m|e]; [apply IH|].
  destruct (is_Exception e); [apply IH | reflexivity].
Qed.

(** The loop on updates whose material, if any, does not fail with
    anything that is not an [Exception]. *)
Lemma apply_updates_general (items : dict) :
  forall (obj : entity) (log : list effect),
    NoDup (keys items) ->
    (forall d e, lookup items "material" = Some (VDict d) ->
                 contains d "type" = true ->
                 hasattr obj "material" = true ->
                 create_material_from_dict d = Err e ->
                 is_Exception e = true) ->
    exists obj' log',
      apply_updates items obj log = (obj', log ++ log', None) /\
      (forall k v, lookup items k = Some v -> hasattr obj k = true ->
                   lookup (ent_attrs obj') k = Some (stored k v)) /\
      (forall k, lookup items k = None \/ hasattr obj k = false ->
                 lookup (ent_attrs obj') k = lookup (ent_attrs obj) k) /\
      (forall w, In w log' ->
                 exists d e,
                   lookup items "material" = Some (VDict d) /\
                   contains d "type" = true /\
                   hasattr obj "material" = true /\
                   create_material_from_dict d = Err e /\
                   w = material_warning e).
Proof.
  induction items as [|[k0 v0] items IH]; intros obj log Hnd Hsafe.
  - exists obj, []. cbn. rewrite app_nil_r.
    repeat split; try discriminate; auto. intros w [].
  - cbn [keys map fst] in Hnd. apply NoDup_cons_iff in Hnd as [Hk0 Hnd].
    fold (keys items) in Hk0, Hnd.
    assert (Hnone : lookup items k0 = None) by now apply lookup_none_keys.
    destruct (hasattr obj k0) eqn:Hh.
    + (* the key is applied *)
      assert (Hstep : exists log1,
                 apply_updates ((k0, v0) :: items) obj log
                 = apply_updates items (setattr obj k0 (stored k0 v0))
                     (log ++ log1) /\
                 (forall w, In w log1 ->
                    exists d e,
                      k0 = "material" /\ v0 = VDict d /\
                      contains d "type" = true /\
                      create_material_from_dict d = Err e /\
                      w = material_warning e)).
      { cbn [apply_updates]. rewrite Hh. unfold stored.
        destruct v0 as [|b|z|q|t|l|d|cls fields];
          try (exists []; rewrite app_nil_r; split;
               [reflexivity | intros w []]).
        destruct ((k0 =? "material")%string && contains d "type") eqn:Hm;
          [|exists []; rewrite app_nil_r; split;
            [reflexivity | intros w []]].
        apply andb_true_iff in Hm as [Hk Ht]. apply String.eqb_eq in Hk.
        destruct (create_material_from_dict d) as [m|e] eqn:He.
        - exists []. rewrite app_nil_r. split; [reflexivity | intros w []].
        - rewrite (Hsafe d e); auto.
          + exists [material_warning e]. split; [reflexivity|].
            intros w [<-|[]]. now exists d, e.
          + subst k0. cbn [lookup]. now rewrite String.eqb_refl.
          + now subst k0. }
      destruct Hstep as (log1 & Hrun & Hlog1).
      set (obj1 := setattr obj k0 (stored k0 v0)) in *.
      assert (Hattr : forall k, hasattr obj1 k = hasattr obj k)
        by (intros k; now apply hasattr_setattr_same).
      destruct (IH obj1 (log ++ log1) Hnd)
        as (obj' & log' & Happ & Hval & Hrest & Hw).
      { intros d e Hl Ht Hm He. rewrite Hattr in Hm.
        apply (Hsafe d e); auto. cbn [lookup].
        destruct (String.eqb_spec k0 "material") as [->|_];
          [congruence | exact Hl]. }
      exists obj', (log1 ++ log'). rewrite Hrun, Happ, app_assoc.
      split; [reflexivity|]. split; [|split].
      * intros k v Hl Hk. cbn [lookup] in Hl.
        destruct (String.eqb_spec k0 k) as [->|Hne].
        -- injection Hl as <-. rewrite (Hrest k (or_introl Hnone)).
           unfold obj1. cbn [setattr ent_attrs]. apply lookup_set_same.
        -- apply Hval; [exact Hl | now rewrite Hattr].
      * intros k Hk.
        assert (Hne : k0 <> k).
        { intros ->. destruct Hk as [Hk|Hk]; [|congruence].
          cbn [lookup] in Hk. now rewrite String.eqb_refl in Hk. }
        rewrite (Hrest k).
        -- unfold obj1. cbn [setattr ent_attrs]. now apply lookup_set_other.
        -- destruct Hk as [Hk|Hk]; [left | right; now rewrite Hattr].
           cbn [lookup] in Hk. destruct (String.eqb_spec k0 k); congruence.
      * intros w Hin. apply in_app_or in Hin as [Hin|Hin].
        -- destruct (Hlog1 w Hin) as (d & e & -> & -> & Ht & He & ->).
           exists d, e. cbn [lookup]. rewrite String.eqb_refl.
           now repeat split.
        -- destruct (Hw w Hin) as (d & e & Hl & Ht & Hm & He & ->).
           exists d, e. rewrite Hattr in Hm. repeat split; auto.
           cbn [lookup].
           destruct (String.eqb_spec k0 "material") as [->|_];
             [congruence | exact Hl].
    + (* the object has no such attribute: the key is skipped *)
      destruct (IH obj log Hnd) as (obj' & log' & Happ & Hval & Hrest & Hw).
      { intros d e Hl Ht Hm He. apply (Hsafe d e); auto. cbn [lookup].
        destruct (String.eqb_spec k0 "material") as [->|_];
          [congruence | exact Hl]. }
      exists obj', log'. cbn [apply_updates]. rewrite Hh.
      split; [exact Happ|]. split; [|split].
      * intros k v Hl Hk. cbn [lookup] in Hl.
        destruct (String.eqb_spec k0 k) as [->|Hne]; [congruence|].
        now apply Hval.
      * intros k Hk. destruct (String.eqb_spec k0 k) as [<-|Hne].
        -- apply Hrest. now right.
        -- apply Hrest. destruct Hk as [Hk|Hk]; [left | now right].
           cbn [lookup] in Hk. destruct (String.eqb_spec k0 k); congruence.
      * intros w Hin. destruct (Hw w Hin) as (d & e & Hl & Ht & Hm & He & ->).
        exists d, e. repeat split; auto. cbn [lookup].
        destruct (String.eqb_spec k0 "material") as [->|_];
          [congruence | exact Hl].
Qed.



(** **** Traffic of other sessions *)

(** X11: a session ignores the traffic of other viewers.  A run of
    messages, none of them a resync request, each carrying a [viewer_id]
    that is not the session's, leaves the session as it was: nothing is
    emitted, triggered, stored or executed. *)
Theorem foreign_traffic_is_ignored
    (msgs : list (inbound * value)) (s : ViewerClient) :
  Forall (fun m => fst m <> request_state_from_client /\
                   exists d, snd m = VDict d /\ foreign d s = true) msgs ->
  deliver msgs s = s.
Proof.
  induction 1 as [|[ev data] msgs (Hev & d & Hd & Hf) _ IH]; [reflexivity|].
  cbn [fst snd] in Hev, Hd. subst data. cbn [deliver].
  now rewrite (foreign_message_is_dropped ev d s Hev Hf).
Qed.

(** **** Console text *)

Lemma string_app_assoc (a b c : string) :
  ((a ++ b) ++ c = a ++ (b ++ c))%string.
Proof. induction a as [|x a IH]; cbn; [reflexivity | now rewrite IH]. Qed.

Lemma string_app_nil_r (a : string) : (a ++ "" = a)%string.
Proof. induction a as [|x a IH]; cbn; [reflexivity | now rewrite IH]. Qed.

Lemma run_op_frame (op : console_op) (s : ViewerClient) :
  let s' := state_of (run_op op s) in
  _print_buffer s' = (_print_buffer s ++ retained [op])%string /\
  objects s' = objects s /\ ui_controls s' = ui_controls s.
Proof.
  destruct op as [text color|text color end_]; cbn [run_op retained].
  - unfold _emit_console_text. cbn [truthy].
    destruct (String.eqb_spec text "") as [->|_]; cbn [negb state_of].
    + now rewrite string_app_nil_r.
    + cbn [perform with_print_buffer _print_buffer objects ui_controls].
      now rewrite string_app_nil_r.
  - unfold print_colored.
    cbn [state_of perform _print_buffer objects ui_controls].
    now rewrite string_app_nil_r.
Qed.

(** X12: the console buffer retains what [_emit_console_text] sends, and
    only that.  After any sequence of console emissions, the buffer is
    the old buffer followed by the texts given to [_emit_console_text] in
    order; text sent with [print_colored] is not in it.  A later resync
    replays this buffer as the last message, split into segments afresh,
    so the colour passed to [_emit_console_text] is not replayed. *)
Theorem console_text_is_retained_for_resync
    (ops : list console_op) (s : ViewerClient) :
  let s' := run_ops ops s in
  let history := (_print_buffer s ++ retained ops)%string in
  _print_buffer s' = history /\
  objects s' = objects s /\
  ui_controls s' = ui_controls s /\
  forall data,
    exists s'',
      handle_request_state data s' = Return tt s'' /\
      (history <> "" ->
       exists front,
         effects s'' =
           front ++ [EmitConsoleOutput (split_text_to_segments history)]).
Proof.
  cbn zeta.
  assert (Hrun : _print_buffer (run_ops ops s)
                 = (_print_buffer s ++ retained ops)%string /\
                 objects (run_ops ops s) = objects s /\
                 ui_controls (run_ops ops s) = ui_controls s).
  { revert s. induction ops as [|op ops IH]; intros s.
    - cbn. now rewrite string_app_nil_r.
    - cbn [run_ops]. destruct (IH (state_of (run_op op s))) as (Hb & Ho & Hc).
      destruct (run_op_frame op s) as (Hb1 & Ho1 & Hc1).
      rewrite Hb, Ho, Hc, Hb1, Ho1, Hc1, string_app_assoc.
      repeat split. f_equal.
      destruct op; cbn [retained]; [|reflexivity].
      now rewrite string_app_nil_r. }
  destruct Hrun as (Hb & Ho & Hc). repeat split; auto.
  intros data. rewrite handle_request_state_trace. eexists.
  split; [reflexivity|]. intros Hne.
  rewrite effects_perform_all. unfold resync_trace.
  rewrite Hb, (truthy_nonempty _ Hne).
  eexists. rewrite !app_assoc. reflexivity.
Qed.

Lemma default_color_spec (c : string) (segment : dict) :
  c <> "" ->
  truthy (get (default_color c segment) "color") = true /\
  (truthy (get segment "color") = true -> default_color c segment = segment) /\
  (truthy (get segment "color") = false ->
   get (default_color c segment) "color" = VStr c) /\
  (forall k, k <> "color" ->
             lookup (default_color c segment) k = lookup segment k).
Proof.
  intros Hc. unfold default_color.
  destruct (truthy (get segment "color")) eqn:Ht.
  - repeat split; auto. discriminate.
  - unfold get. rewrite lookup_set_same. repeat split.
    + now apply truthy_nonempty.
    + discriminate.
    + intros k Hk. apply lookup_set_other. congruence.
Qed.

(** X13: the colour given to [_emit_console_text] fills in, it never
    overrides.  For a non-empty text and a non-empty colour name, the one
    message sent holds the segments of the text in order, each with a
    colour: a segment that came with a colour of its own is unchanged, one
    without gets the given colour, and no other field of a segment is
    touched. *)
Theorem given_colour_fills_only_uncoloured_segments
    (text c : string) (s : ViewerClient) :
  text <> "" ->
  c <> "" ->
  exists s' segments,
    _emit_console_text text (Some c) s = Return tt s' /\
    effects s' = effects s ++ [EmitConsoleOutput segments] /\
    Forall2
      (fun before after =>
         truthy (get after "color") = true /\
         (truthy (get before "color") = true -> after = before) /\
         (truthy (get before "color") = false ->
          get after "color" = VStr c) /\
         (forall k, k <> "color" -> lookup after k = lookup before k))
      (split_text_to_segments text) segments.
Proof.
  intros Htext Hc. unfold _emit_console_text.
  rewrite (truthy_nonempty _ Htext). cbn [negb].
  eexists _, _. split; [reflexivity|]. split; [reflexivity|].
  induction (split_text_to_segments text) as [|segment segments IH];
    cbn [map]; constructor; [|exact IH].
  now apply default_color_spec.
Qed.

(** **** The console handlers *)

Lemma returns_bind {A B : Type} (m : outcome A)
    (k : A -> ViewerClient -> outcome B) :
  returns m = true ->
  (forall a s, returns (k a s) = true) ->
  returns (bind m k) = true.
Proof. destruct m; cbn; [auto | discriminate]. Qed.

Lemma emit_console_text_returns text color s :
  returns (_emit_console_text text color s) = true.
Proof.
  destruct (emit_console_text_trace text color s) as (s' & -> & _).
  reflexivity.
Qed.

Lemma flush_captured_returns capture_output r s :
  returns (flush_captured capture_output r s) = true.
Proof.
  destruct (flush_captured_trace capture_output r s) as (s' & -> & _).
  reflexivity.
Qed.

Lemma warn_console_disabled_once_returns s :
  returns (_warn_console_disabled_once s) = true.
Proof.
  unfold _warn_console_disabled_once.
  destruct (_console_disabled_warning_emitted s); [reflexivity|].
  apply emit_console_text_returns.
Qed.

Lemma execute_console_command_returns command s :
  returns (_execute_console_command command s) = true.
Proof.
  unfold _execute_console_command.
  destruct (negb (truthy (VStr (strip _)))); [reflexivity|].
  destruct (resolve_console_scope_returns s) as (g & l & s0 & -> & _).
  cbn [bind]. unfold emit_traceback.
  repeat match goal with
         | |- returns (bind _ _) = true =>
             apply returns_bind; [|intros; apply flush_captured_returns]
         | |- returns (_emit_console_text _ _ _) = true =>
             apply emit_console_text_returns
         | |- returns (Return _ _) = true => reflexivity
         | |- returns (match ?x with _ => _ end) = true => destruct x
         | |- returns (if ?x then _ else _) = true => destruct x
         end.
Qed.


Lemma rstrip_with_snoc (p : ascii -> bool) (c : ascii) (text : string) :
  p c = true ->
  rstrip_with p (text ++ String c "") = rstrip_with p text.
Proof.
  intros Hc. induction text as [|x text IH]; cbn.
  - now rewrite Hc.
  - now rewrite IH.
Qed.

(** X15: newlines at the end of a command do not matter.  The console
    runs a command followed by a newline exactly as it runs the command
    itself: same reply, same effects, same session afterwards. *)
Theorem trailing_newline_of_a_command_is_ignored
    (data : dict) (cmd : string) (s : ViewerClient) :
  let sent (text : string) :=
    ("command", VStr text) :: ("viewer_id", VStr (viewer_id s)) :: data in
  handle_console_command (VDict (sent (cmd ++ newline)%string)) s
  = handle_console_command (VDict (sent cmd)) s.
Proof.
  cbn zeta. unfold handle_console_command, foreign, get, get_default.
  cbn [lookup String.eqb Ascii.eqb Bool.eqb].
  destruct (negb (eq_str (VStr (viewer_id s)) (viewer_id s))); [reflexivity|].
  destruct (negb (interactive_console_enabled s)); [reflexivity|].
  unfold _execute_console_command. rewrite !command_text.
  unfold rstrip_newlines, newline. now rewrite rstrip_with_snoc.
Qed.

(** **** The console scope *)

Lemma namespace_heap_store_same (h : heap) (a : addr) (d : dict) :
  a < length h -> namespace (heap_store h a d) a = d.
Proof.
  unfold namespace. revert a.
  induction h as [|d0 h IH]; intros [|a] Ha; cbn in *; try lia;
    [reflexivity | apply IH; lia].
Qed.

Lemma namespace_heap_store_other (h : heap) (a a' : addr) (d : dict) :
  a' <> a -> namespace (heap_store h a d) a' = namespace h a'.
Proof.
  unfold namespace. revert a a'.
  induction h as [|d0 h IH]; intros [|a] [|a'] Hne; cbn;
    try reflexivity; try contradiction.
  apply IH. congruence.
Qed.

(** X16: the scope set with [set_console_scope] is the one the console
    resolves, the locals defaulting to the globals.  Resolving makes sure
    the globals bind [__builtins__]: the name is added when missing and
    never overwritten, no other binding and no other namespace is
    touched, nothing is emitted, and resolving once more changes
    nothing. *)
Theorem console_scope_is_resolved_with_builtins
    (g : addr) (l : option addr) (s : ViewerClient) :
  g < length (namespaces s) ->
  let s1 := state_of (set_console_scope (Some g) l s) in
  let scope := (g, match l with Some l => l | None => g end) in
  exists s2,
    _resolve_console_scope s1 = Return scope s2 /\
    contains (namespace (namespaces s2) g) "__builtins__" = true /\
    (forall k,
        k <> "__builtins__"
        \/ contains (namespace (namespaces s) g) "__builtins__" = true ->
        lookup (namespace (namespaces s2) g) k
        = lookup (namespace (namespaces s) g) k) /\
    (forall a, a <> g ->
               namespace (namespaces s2) a = namespace (namespaces s) a) /\
    effects s2 = effects s /\
    _resolve_console_scope s2 = Return scope s2.
Proof.
  intros Hg. cbn zeta. unfold set_console_scope, _resolve_console_scope.
  cbn [state_of with_console_scope _console_scope_globals
       _console_scope_locals namespaces].
  set (l' := match l with Some l => l | None => g end).
  destruct (contains (namespace (namespaces s) g) "__builtins__") eqn:Hb.
  - eexists. split; [reflexivity|].
    cbn [with_console_scope namespaces effects _console_scope_globals
         _console_scope_locals].
    rewrite Hb. repeat split; auto.
  - eexists. split; [reflexivity|].
    cbn [with_namespaces with_console_scope namespaces effects
         _console_scope_globals _console_scope_locals].
    rewrite (namespace_heap_store_same _ _ _ Hg).
    assert (Hin : contains (set (namespace (namespaces s) g) "__builtins__"
                              builtins_module) "__builtins__" = true)
      by now rewrite contains_lookup, lookup_set_same.
    rewrite Hin. repeat split; auto.
    + intros k [Hk|Hk]; [|discriminate].
      apply lookup_set_other. congruence.
    + intros a Ha. now apply namespace_heap_store_other.
Qed.

(** **** Resync, again *)

Lemma console_enabled_perform_all log s :
  interactive_console_enabled (perform_all log s)
  = interactive_console_enabled s.
Proof.
  unfold perform_all. revert s.
  induction log as [|e log IH]; intros s; cbn; [reflexivity|].
  now rewrite IH.
Qed.

(** X17: a resync reads the session and changes nothing but the trace,
    so it can be repeated.  After [handle_request_state] the registries,
    the console buffer, the namespaces and the request slots are as
    before, and a second resync, whatever its message, sends exactly the
    messages the first one sent. *)
Theorem resync_is_read_only_and_repeatable
    (first second : value) (s : ViewerClient) :
  exists s1 s2,
    handle_request_state first s = Return tt s1 /\
    handle_request_state second s1 = Return tt s2 /\
    objects s1 = objects s /\
    ui_controls s1 = ui_controls s /\
    _print_buffer s1 = _print_buffer s /\
    namespaces s1 = namespaces s /\
    _request_threads s1 = _request_threads s /\
    _request_data s1 = _request_data s /\
    effects s1 = effects s ++ resync_trace s /\
    effects s2 = effects s1 ++ resync_trace s.
Proof.
  rewrite handle_request_state_trace.
  set (s1 := perform_all (resync_trace s) s).
  exists s1, (perform_all (resync_trace s1) s1).
  split; [reflexivity|]. split; [apply handle_request_state_trace|].
  destruct (perform_all_frame (resync_trace s) s)
    as (H1 & H2 & H3 & H4 & H5 & H6 & H7).
  fold s1 in H1, H2, H3, H4, H5, H6, H7.
  repeat (split; [assumption|]).
  split; [apply effects_perform_all|].
  rewrite effects_perform_all. f_equal.
  unfold resync_trace. rewrite H1, H2, H3.
  unfold s1. now rewrite console_enabled_perform_all.
Qed.

(** **** The file a screenshot is saved to *)

Lemma endswith_suffix (s t : string) :
  endswith s t = true <-> exists a, s = (a ++ t)%string.
Proof.
  split.
  - induction s as [|c s IH]; cbn [endswith].
    + rewrite orb_false_r. intros H. apply String.eqb_eq in H as <-.
      now exists "".
    + intros H. apply orb_true_iff in H as [H|H].
      * apply String.eqb_eq in H as <-. now exists "".
      * destruct (IH H) as [a ->]. now exists (String c a).
  - intros [a ->]. induction a as [|c a IH]; cbn [append].
    + destruct t; cbn [endswith]; now rewrite String.eqb_refl.
    + cbn [endswith]. rewrite IH. apply orb_true_r.
Qed.

Lemma basename_suffix (p : string) : exists a, p = (a ++ basename p)%string.
Proof.
  induction p as [|c p IH]; [now exists ""|].
  cbn [basename]. destruct (has_char "/" (String c p)); [|now exists ""].
  destruct IH as [a Ha]. exists (String c a). cbn. now rewrite <- Ha.
Qed.

Lemma lstrip_with_suffix (q : ascii -> bool) (p : string) :
  exists a, p = (a ++ lstrip_with q p)%string.
Proof.
  induction p as [|c p IH]; [now exists ""|].
  cbn [lstrip_with]. destruct (q c); [|now exists ""].
  destruct IH as [a Ha]. exists (String c a). cbn. now rewrite <- Ha.
Qed.

Lemma last_ext_suffix (p : string) : exists a, p = (a ++ last_ext p)%string.
Proof.
  induction p as [|c p IH]; [now exists ""|].
  cbn [last_ext]. destruct (has_char "." p).
  - destruct IH as [a Ha]. exists (String c a). cbn. now rewrite <- Ha.
  - destruct (c =? ".")%char; [now exists ""|].
    exists (String c p). now rewrite string_app_nil_r.
Qed.

Lemma splitext_ext_suffix (p : string) : endswith p (splitext_ext p) = true.
Proof.
  apply endswith_suffix. unfold splitext_ext.
  destruct (basename_suffix p) as [a Ha].
  destruct (lstrip_with_suffix (fun c => (c =? ".")%char) (basename p))
    as [b Hb].
  destruct (last_ext_suffix
              (lstrip_with (fun c => (c =? ".")%char) (basename p)))
    as [c Hc].
  exists (a ++ b ++ c)%string. rewrite !string_app_assoc.
  now rewrite <- Hc, <- Hb.
Qed.

Lemma startswith_app (f x : string) : startswith (f ++ x) f = true.
Proof.
  unfold startswith. induction f as [|c f IH]; cbn.
  - now destruct x.
  - destruct (ascii_dec c c); [exact IH | contradiction].
Qed.

(** X18: the name a screenshot is saved under.  The extension that
    picks the pixel format is never empty; the name saved under starts
    with the file name given and ends with that extension; a file name
    that has an extension is used exactly as given, and otherwise the
    only thing ever appended is [.png]. *)
Theorem screenshot_is_saved_under_the_name_given (filename : string) :
  let ext := chosen_extension filename in
  ext <> "" /\
  startswith (saved_as filename ext) filename = true /\
  endswith (saved_as filename ext) ext = true /\
  (splitext_ext filename <> "" -> saved_as filename ext = filename) /\
  (saved_as filename ext = filename
   \/ (splitext_ext filename = "" /\
       saved_as filename ext = (filename ++ ".png")%string)).
Proof.
  cbn zeta. unfold chosen_extension, saved_as. cbn [truthy].
  destruct (String.eqb_spec (splitext_ext filename) "") as [He|He];
    cbn [negb].
  - split; [discriminate|].
    destruct (endswith filename ".png") eqn:Hend.
    + repeat split; auto.
      pose proof (startswith_app filename "") as H.
      now rewrite string_app_nil_r in H.
    + repeat split; auto.
      * apply startswith_app.
      * apply endswith_suffix. now exists filename.
      * contradiction.
  - rewrite splitext_ext_suffix. repeat split; auto.
    + pose proof (startswith_app filename "") as H.
      now rewrite string_app_nil_r in H.
    + apply splitext_ext_suffix.
Qed.

(** **** The camera *)

Lemma lookup_filter_not_none (kwargs : dict) :
  NoDup (keys kwargs) ->
  forall k v,
    lookup (filter (fun kv => negb (is_None (snd kv))) kwargs) k = Some v
    <-> lookup kwargs k = Some v /\ v <> VNone.
Proof.
  induction kwargs as [|[k0 v0] kwargs IH]; intros Hnd k v.
  - cbn. split; [discriminate | now intros [H _]].
  - cbn [keys map fst] in Hnd. apply NoDup_cons_iff in Hnd as [Hk0 Hnd].
    fold (keys kwargs) in Hk0, Hnd.
    assert (Hnone : lookup kwargs k0 = None) by now apply lookup_none_keys.
    cbn [filter snd lookup].
    destruct (is_None v0) eqn:Hv0; cbn [negb lookup].
    + rewrite (IH Hnd).
      destruct (String.eqb_spec k0 k) as [->|_]; [|reflexivity].
      rewrite Hnone. split; [now intros [H _]|].
      intros [H Hv]. injection H as <-. now destruct v0.
    + destruct (String.eqb_spec k0 k) as [->|_]; [|now apply IH].
      split.
      * intros H. injection H as <-. split; [reflexivity|].
        intros ->. discriminate.
      * now intros [H _].
Qed.

(** X19: [set_camera] sends the values given and never a [None].  For
    keyword arguments with distinct names, one [set_camera] message goes
    out (even when nothing is left to send) whose camera dictionary,
    before [as_list], binds a name exactly when the call gave it a value
    other than [None]; the session is otherwise unchanged.  [look_at]
    sends the position and the target it was given, as arrays, and no
    other camera field. *)
Theorem set_camera_sends_the_values_given
    (kwargs : dict) (s : ViewerClient) :
  NoDup (keys kwargs) ->
  exists payload s',
    set_camera kwargs s = Return tt s' /\
    effects s' =
      effects s
      ++ [EmitWithFallback "set_camera"
            [("camera", as_list (VDict payload))]] /\
    (forall k v, lookup payload k = Some v
                 <-> lookup kwargs k = Some v /\ v <> VNone) /\
    objects s' = objects s /\
    ui_controls s' = ui_controls s /\
    (forall position target,
        np_asarray position <> VNone ->
        np_asarray target <> VNone ->
        effects (state_of (look_at position target s)) =
          effects s
          ++ [EmitWithFallback "set_camera"
                [("camera",
                  as_list (VDict [("position", np_asarray position);
                                  ("target", np_asarray target)]))]]).
Proof.
  intros Hnd. unfold set_camera. eexists _, _.
  split; [reflexivity|]. split; [reflexivity|].
  split; [now apply lookup_filter_not_none|].
  repeat split. intros position target Hp Ht.
  unfold look_at, set_camera. cbn [filter snd state_of perform effects].
  destruct (np_asarray position); [contradiction|..];
    (destruct (np_asarray target); [contradiction|..]); reflexivity.
Qed.

(** **** Connecting *)

Lemma split_first_spec (c : ascii) (text : string) :
  has_char c (fst (split_first c text)) = false /\
  startswith text (fst (split_first c text)) = true /\
  (has_char c text = false -> fst (split_first c text) = text).
Proof.
  unfold startswith. induction text as [|x text (H1 & H2 & H3)]; cbn.
  - repeat split.
  - destruct (Ascii.eqb_spec x c) as [->|Hne]; cbn.
    + repeat split. discriminate.
    + destruct (split_first c text) as [a b]. cbn in *.
      destruct (Ascii.eqb_spec x c) as [|_]; [contradiction|]. cbn.
      repeat split; auto.
      * destruct (ascii_dec x x); [exact H2 | contradiction].
      * intros H. now rewrite (H3 H).
Qed.

Lemma has_char_app (c : ascii) (a b : string) :
  has_char c (a ++ b) = has_char c a || has_char c b.
Proof.
  induction a as [|x a IH]; cbn; [reflexivity|].
  now rewrite IH, orb_assoc.
Qed.

Lemma startswith_trans (a b c : string) :
  startswith a b = true -> startswith b c = true -> startswith a c = true.
Proof.
  unfold startswith. revert a b.
  induction c as [|x c IH]; intros a b Hab Hbc.
  - now destruct a.
  - destruct b as [|y b]; [discriminate|]. cbn in Hbc.
    destruct (ascii_dec x y) as [<-|]; [|discriminate].
    destruct a as [|z a]; [discriminate|]. cbn in Hab |- *.
    destruct (ascii_dec x z) as [<-|]; [|discriminate].
    now apply (IH a b).
Qed.

(** X20: the URLs of a client.  The URL handed to the socket always
    carries a scheme ([http://] is put in front when the one given has
    neither [http://] nor [https://]; no URL means
    [http://localhost:8080]); the URL kept as [server_url] has no query
    and is a prefix of it.  The session identity is appended as the
    query [viewer_id] exactly when the URL has no query of its own: a URL
    given with a query is handed over with that query unchanged. *)
Theorem client_urls_carry_scheme_and_identity
    (server_url : option string) (viewer_id : string) :
  let url := fst (server_urls server_url viewer_id) in
  let base := snd (server_urls server_url viewer_id) in
  let given :=
    match server_url with
    | Some u =>
        if (u =? "")%string then "http://localhost:8080"
        else if startswith u "http://" || startswith u "https://" then u
        else ("http://" ++ u)%string
    | None => "http://localhost:8080"
    end in
  (startswith url "http://" || startswith url "https://") = true /\
  has_char "?" base = false /\
  startswith url base = true /\
  (has_char "?" given = true -> url = given) /\
  (has_char "?" given = false -> viewer_id <> "" ->
   base = given /\ url = (given ++ "?viewer_id=" ++ viewer_id)%string) /\
  (viewer_id = "" -> url = given).
Proof.
  cbn zeta. unfold server_urls. cbn [fst snd truthy].
  set (given :=
         match server_url with
         | Some u =>
             if negb (negb (u =? "")%string) then "http://localhost:8080"
             else if negb (startswith u "http://" || startswith u "https://")
                  then ("http://" ++ u)%string
                  else u
         | None => "http://localhost:8080"
         end).
  assert (Hgiven : given =
            match server_url with
            | Some u =>
                if (u =? "")%string then "http://localhost:8080"
                else if startswith u "http://" || startswith u "https://"
                     then u
                     else ("http://" ++ u)%string
            | None => "http://localhost:8080"
            end).
  { unfold given. destruct server_url as [u|]; [|reflexivity].
    destruct (u =? "")%string; cbn [negb]; [reflexivity|].
    now destruct (startswith u "http://" || startswith u "https://"). }
  rewrite <- Hgiven. clear Hgiven.
  assert (Hscheme : (startswith given "http://"
                     || startswith given "https://") = true).
  { unfold given. destruct server_url as [u|]; [|reflexivity].
    destruct (u =? "")%string; cbn [negb]; [reflexivity|].
    destruct (startswith u "http://" || startswith u "https://") eqn:Hu;
      cbn [negb]; [exact Hu|].
    now rewrite (startswith_app "http://" u). }
  destruct (split_first_spec "?" given) as (Hq & Hpre & Hwhole).
  assert (Hlong : forall tail,
             startswith (given ++ tail) given = true)
    by (intros; apply startswith_app).
  destruct (String.eqb_spec viewer_id "") as [->|Hid]; cbn [negb andb].
  - split; [exact Hscheme|]. split; [exact Hq|]. split; [exact Hpre|].
    split; [reflexivity|]. split; [|reflexivity].
    intros _ Hne. now contradiction Hne.
  - destruct (has_char "?" given) eqn:Hhas; cbn [negb].
    + split; [exact Hscheme|]. split; [exact Hq|]. split; [exact Hpre|].
      split; [reflexivity|]. split; [discriminate|].
      intros Hempty. contradiction.
    + rewrite (Hwhole eq_refl). split; [|split; [exact Hhas|]].
      * apply orb_true_iff in Hscheme as [H|H]; apply orb_true_iff;
          [left | right]; (eapply startswith_trans; [apply Hlong | exact H]).
      * split; [apply Hlong|]. split; [discriminate|].
        split; [now split|]. intros Hempty. contradiction.
Qed.

(** X21: [connect] opens a fresh session.  The identity is the one
    given, or a synthesized non-empty one; nothing is registered and
    every request slot is idle; the console scope is the calling frame's
    when there is one; and with the interactive console asked for, the
    warning banner is printed, sent to the console in yellow and kept in
    the console buffer, so that a later resync replays it. *)
Theorem connect_opens_a_fresh_session
    (server_url given_id : option string) (interactive_console : bool)
    (caller : option (addr * addr)) (store : heap) :
  exists s,
    connect server_url given_id interactive_console caller store
    = Return tt s /\
    viewer_id s <> "" /\
    (forall v, given_id = Some v -> v <> "" -> viewer_id s = v) /\
    interactive_console_enabled s = interactive_console /\
    objects s = [] /\
    ui_controls s = [] /\
    (forall kind, In kind _request_events -> idle kind s = true) /\
    (_console_scope_globals s, _console_scope_locals s)
    = match caller with
      | Some (g, l) => (Some g, Some l)
      | None => (None, None)
      end /\
    namespaces s = store /\
    _print_buffer s
    = (if interactive_console
       then (console_enabled_banner ++ newline)%string else "") /\
    effects s =
      PrintLine ("Creating client connecting to: "
                   ++ fst (server_urls server_url (viewer_id s)))%string
      :: (if interactive_console
          then PrintLine console_enabled_banner
               :: said (console_enabled_banner ++ newline)%string
                    (Some "yellow")
          else []).
Proof.
  unfold connect.
  set (viewer := client_init server_url given_id interactive_console store).
  assert (Hinit :
            viewer_id viewer <> "" /\
            (forall v, given_id = Some v -> v <> "" -> viewer_id viewer = v) /\
            interactive_console_enabled viewer = interactive_console /\
            objects viewer = [] /\ ui_controls viewer = [] /\
            (forall kind, In kind _request_events ->
                          idle kind viewer = true) /\
            namespaces viewer = store /\
            _print_buffer viewer = "" /\
            effects viewer =
              [PrintLine ("Creating client connecting to: "
                 ++ fst (server_urls server_url (viewer_id viewer)))%string]).
  { unfold viewer, client_init.
    destruct given_id as [v|]; cbn [truthy].
    - destruct (String.eqb_spec v "") as [->|Hv]; cbn [negb].
      + repeat split; try reflexivity; try discriminate.
        * intros v' Hv' Hne. injection Hv' as <-. contradiction.
        * intros kind Hin. cbn in Hin.
          destruct Hin as [<-|[<-|[<-|[]]]]; reflexivity.
      + repeat split; try reflexivity; try assumption.
        * intros v' Hv' _. now injection Hv' as <-.
        * intros kind Hin. cbn in Hin.
          destruct Hin as [<-|[<-|[<-|[]]]]; reflexivity.
    - repeat split; try reflexivity; try discriminate.
      intros kind Hin. cbn in Hin.
          destruct Hin as [<-|[<-|[<-|[]]]]; reflexivity. }
  destruct Hinit as (Hid & Hgiven & Hon & Hobj & Hctl & Hidle & Hns & Hbuf
                     & Heff).
  assert (Hscope : exists v1,
             match caller with
             | Some (g, l) => set_console_scope (Some g) (Some l) viewer
             | None => Return tt viewer
             end = Return tt v1 /\
             v1 = match caller with
                  | Some (g, l) => with_console_scope (Some g) (Some l) viewer
                  | None => viewer
                  end).
  { destruct caller as [[g l]|]; eexists; split; reflexivity. }
  destruct Hscope as (v1 & -> & Hv1). cbn [bind].
  assert (Hfresh : _console_scope_globals viewer = None /\
                   _console_scope_locals viewer = None).
  { unfold viewer, client_init.
    destruct given_id as [v|]; [destruct (truthy (VStr v))|]; split;
      reflexivity. }
  assert (Hsame : viewer_id v1 = viewer_id viewer /\
                  interactive_console_enabled v1
                  = interactive_console_enabled viewer /\
                  objects v1 = objects viewer /\
                  ui_controls v1 = ui_controls viewer /\
                  (forall kind, idle kind v1 = idle kind viewer) /\
                  namespaces v1 = namespaces viewer /\
                  _print_buffer v1 = _print_buffer viewer /\
                  effects v1 = effects viewer /\
                  (_console_scope_globals v1, _console_scope_locals v1)
                  = match caller with
                    | Some (g, l) => (Some g, Some l)
                    | None => (None, None)
                    end).
  { subst v1. destruct caller as [[g l]|]; repeat split.
    destruct Hfresh as [-> ->]. reflexivity. }
  destruct Hsame as (S1 & S2 & S3 & S4 & S5 & S6 & S7 & S8 & S9).
  destruct interactive_console.
  - unfold _emit_console_text, said.
    assert (Hb : truthy (VStr (console_enabled_banner ++ newline)) = true)
      by reflexivity.
    rewrite Hb. cbn [negb]. eexists. split; [reflexivity|].
    cbn [perform with_print_buffer viewer_id interactive_console_enabled
         objects ui_controls namespaces _print_buffer effects
         _console_scope_globals _console_scope_locals].
    rewrite S1, S2, S3, S4, S6, S7, S8, Hbuf, Heff.
    repeat split; auto.
    intros kind Hin. rewrite <- (Hidle kind Hin), <- S5. reflexivity.
  - exists v1. split; [reflexivity|].
    rewrite S1, S2, S3, S4, S6, S7, S8, Hbuf, Heff.
    repeat split; auto.
    intros kind Hin. now rewrite S5, (Hidle kind Hin).
Qed.

(** **** The histogram *)

Lemma fold_max_bounds (cs : list Z) :
  forall c,
    (c <= fold_left Z.max cs c)%Z /\
    Forall (fun x => (x <= fold_left Z.max cs c)%Z) cs /\
    In (fold_left Z.max cs c) (c :: cs).
Proof.
  induction cs as [|x cs IH]; intros c; cbn [fold_left].
  - repeat split; [lia | constructor | now left].
  - destruct (IH (Z.max c x)) as (H1 & H2 & H3). repeat split.
    + lia.
    + constructor; [lia | exact H2].
    + destruct H3 as [H3|H3]; [|now right; right].
      rewrite <- H3. destruct (Z.max_spec c x) as [[_ ->]|[_ ->]];
        [right; now left | now left].
Qed.

Lemma nice_ceil_five (val : Z) :
  let top := PlotHelpers.nice_ceil val 5 in
  (val <= top)%Z /\ (5 <= top)%Z /\ (top mod 5 = 0)%Z /\
  (0 < val -> top < val + 5)%Z.
Proof.
  cbn zeta. unfold PlotHelpers.nice_ceil.
  destruct (Z.ltb_spec 0 val) as [Hpos|Hneg].
  - pose proof (Z.div_mod (- val) 5 ltac:(lia)) as Hdiv.
    pose proof (Z.mod_pos_bound (- val) 5 ltac:(lia)) as Hmod.
    repeat split; try lia.
    replace (- (- val / 5) * 5)%Z with ((- (- val / 5)) * 5)%Z by lia.
    apply Z.mod_mul. lia.
  - repeat split; try lia; reflexivity.
Qed.


End MoreProperties.

(* ===================================================================== *)
(** ** The properties on the small instance *)
(* ===================================================================== *)

Import Demo.

(** C1 at a concrete message: a resync request that names another viewer
    is answered all the same. *)
Example stranger_resync_is_answered :
  effects (state_of (dispatch request_state_from_client (stranger []) scene))
  = effects scene
    ++ [ Emit "console_meta" [("enabled", VBool false)];
         EmitWithFallback "set_camera" [("camera", VDict DEFAULT_CAMERA_STATE)];
         EmitAddGeometry
           (new_entity Mesh [("name", VStr "bunny"); ("visible", VBool true);
                             ("material", VNone)]);
         EmitAddGeometry
           (new_entity Points [("name", VStr "cloud"); ("visible", VBool true);
                               ("size", VInt 2)]);
         EmitAddControl
           (new_entity Slider [("name", VStr "speed"); ("initial", VInt 1)]);
         EmitAddControl
           (new_entity Label [("name", VStr "label_5f3a9c0e");
                              ("text", VStr "frame")]) ].
Proof. vm_compute. reflexivity. Qed.

(** The same message on any other event is dropped. *)
Example stranger_update_is_dropped :
  dispatch update_object (stranger [("id", VStr "bunny")]) scene
  = Return tt scene.
Proof. reflexivity. Qed.

(** C9 at a concrete message: the unknown-kind check lets
    [camera_request_info] through. *)
Example inner_marker_fulfils_camera_slot :
  let s := state_of (handle_state_request
                       (message [("event", VStr "camera_request_info");
                                 ("data", VInt 7)]) quiet_session) in
  is_set "camera_info" s = true /\ get (_request_data s) "camera_info" = VInt 7.
Proof. split; reflexivity. Qed.



Lemma resync_replays_registration_order_witness :
  objects quiet_session = [] /\
  ui_controls quiet_session = [] /\
  (forall cls, In "to_dict" (class_attrs cls)) /\
  NoDup (map ent_name
           (filter is_geometry (fst (register scene_calls quiet_session)))) /\
  NoDup (map ent_name
           (filter is_control (fst (register scene_calls quiet_session)))) /\
  exists s'',
    handle_request_state VNone scene = Return tt s'' /\
    effects s'' =
      effects scene
      ++ [ Emit "console_meta" [("enabled", VBool false)];
           EmitWithFallback "set_camera"
             [("camera",
               VDict [ ("projection_mode", VStr "perspective");
                       ("fov", VInt 50);
                       ("near", VFloat (1 # 10)%Q);
                       ("far", VInt 1000) ])] ]
      ++ [ EmitAddGeometry
             (new_entity Mesh [("name", VStr "bunny"); ("visible", VBool true);
                               ("material", VNone)]);
           EmitAddGeometry
             (new_entity Points [("name", VStr "cloud"); ("visible", VBool true);
                                 ("size", VInt 2)]) ]
      ++ [ EmitAddControl
             (new_entity Slider [("name", VStr "speed"); ("initial", VInt 1)]);
           EmitAddControl
             (new_entity Label [("name", VStr "label_5f3a9c0e");
                                ("text", VStr "frame")]) ]
      ++ [].
Proof.
  assert (Hdict : forall cls, In "to_dict" (class_attrs cls))
    by (intros cls; left; reflexivity).
  assert (Hgeo : NoDup (map ent_name
                          (filter is_geometry
                             (fst (register scene_calls quiet_session))))).
  { vm_compute.
    repeat (constructor; [intros H; cbn in H; intuition discriminate|]).
    constructor. }
  assert (Hctl : NoDup (map ent_name
                          (filter is_control
                             (fst (register scene_calls quiet_session))))).
  { vm_compute.
    repeat (constructor; [intros H; cbn in H; intuition discriminate|]).
    constructor. }
  repeat (split; [first [reflexivity | assumption]|]).
  pose proof (resync_replays_registration_order scene_calls VNone quiet_session
                eq_refl eq_refl Hdict Hgeo Hctl) as H.
  cbv zeta in H. destruct H as (s'' & Hret & Heff).
  exists s''. split; [exact Hret|].
  vm_compute in Heff. vm_compute. exact Heff.
Defined.







(** The slip on the same path, at the default [filename=None]. *)
Example screenshot_without_filename_raises :
  exists s',
    screenshot None None None [screenshot_reply] console_session
    = Raise (UnboundLocalError
               "local variable 'ext' referenced before assignment") s'.
Proof. eexists. vm_compute. reflexivity. Qed.




(** *** The further properties on the small instance *)

Import DemoRest.

Lemma last_registration_wins_witness :
  let first := new_entity Mesh [("name", VStr "bunny"); ("visible", VBool true)] in
  let last := new_entity Mesh [("name", VStr "bunny"); ("visible", VBool false)] in
  let knob := new_entity Slider [("name", VStr "speed"); ("initial", VInt 1)] in
  fst (register repainted_calls quiet_session) = [first] ++ last :: [knob] /\
  (forall e', In e' [knob] -> is_geometry e' = is_geometry last ->
              ent_name e' <> ent_name last) /\
  lookup (objects (snd (register repainted_calls quiet_session))) "bunny"
  = Some last.
Proof.
  intros first last knob.
  assert (Hlater : forall e', In e' [knob] ->
                              is_geometry e' = is_geometry last ->
                              ent_name e' <> ent_name last).
  { intros e' [<-|[]] Hg. discriminate Hg. }
  split; [reflexivity|]. split; [exact Hlater|].
  exact (last_registration_wins repainted_calls quiet_session
           [first] [knob] last eq_refl Hlater).
Defined.

Lemma registration_keeps_names_distinct_witness :
  NoDup (keys (objects quiet_session)) /\
  NoDup (keys (ui_controls quiet_session)) /\
  self_named (objects quiet_session) /\
  self_named (ui_controls quiet_session) /\
  NoDup (keys (objects scene)) /\
  NoDup (keys (ui_controls scene)) /\
  self_named (objects scene) /\
  self_named (ui_controls scene) /\
  NoDup (map ent_name (values (objects scene))) /\
  NoDup (map ent_name (values (ui_controls scene))).
Proof.
  assert (H1 : NoDup (keys (objects quiet_session))) by constructor.
  assert (H2 : NoDup (keys (ui_controls quiet_session))) by constructor.
  assert (H3 : self_named (objects quiet_session)) by constructor.
  assert (H4 : self_named (ui_controls quiet_session)) by constructor.
  repeat (split; [assumption|]).
  exact (registration_keeps_names_distinct scene_calls quiet_session
           H1 H2 H3 H4).
Defined.




Lemma foreign_traffic_is_ignored_witness :
  Forall (fun m => fst m <> request_state_from_client /\
                   exists d, snd m = VDict d /\ foreign d scene = true)
    foreign_traffic /\
  deliver foreign_traffic scene = scene.
Proof.
  assert (H : Forall (fun m => fst m <> request_state_from_client /\
                               exists d, snd m = VDict d /\
                                         foreign d scene = true)
                foreign_traffic).
  { repeat (constructor;
            [split; [discriminate | eexists; split; reflexivity]|]).
    constructor. }
  split; [exact H|].
  exact (foreign_traffic_is_ignored foreign_traffic scene H).
Defined.

Lemma given_colour_fills_only_uncoloured_segments_witness :
  "saved" <> "" /\ "green" <> "" /\
  exists s' segments,
    _emit_console_text "saved" (Some "green") quiet_session = Return tt s' /\
    effects s' = effects quiet_session ++ [EmitConsoleOutput segments] /\
    Forall2
      (fun before after =>
         truthy (get after "color") = true /\
         (truthy (get before "color") = true -> after = before) /\
         (truthy (get before "color") = false ->
          get after "color" = VStr "green") /\
         (forall k, k <> "color" -> lookup after k = lookup before k))
      (split_text_to_segments "saved") segments.
Proof.
  assert (H1 : "saved" <> "") by discriminate.
  assert (H2 : "green" <> "") by discriminate.
  split; [exact H1|]. split; [exact H2|].
  exact (given_colour_fills_only_uncoloured_segments "saved" "green"
           quiet_session H1 H2).
Defined.

Lemma console_scope_is_resolved_with_builtins_witness :
  0 < length (namespaces console_session) /\
  exists s2,
    _resolve_console_scope
      (state_of (set_console_scope (Some 0) None console_session))
    = Return (0, 0) s2 /\
    contains (namespace (namespaces s2) 0) "__builtins__" = true /\
    effects s2 = effects console_session /\
    _resolve_console_scope s2 = Return (0, 0) s2.
Proof.
  assert (H : 0 < length (namespaces console_session)) by (cbn; lia).
  split; [exact H|].
  destruct (console_scope_is_resolved_with_builtins 0 None console_session H)
    as (s2 & Hres & Hb & _ & _ & Heff & Hagain).
  exists s2. repeat split; assumption.
Defined.

Lemma set_camera_sends_the_values_given_witness :
  let kwargs := [("fov", VInt 50); ("near", VNone); ("far", VInt 1000)] in
  NoDup (keys kwargs) /\
  exists payload s',
    set_camera kwargs quiet_session = Return tt s' /\
    effects s' =
      effects quiet_session
      ++ [EmitWithFallback "set_camera"
            [("camera", as_list (VDict payload))]] /\
    lookup payload "fov" = Some (VInt 50) /\
    lookup payload "near" = None.
Proof.
  intros kwargs.
  assert (Hnd : NoDup (keys kwargs)).
  { vm_compute.
    repeat (constructor; [intros H; cbn in H; intuition discriminate|]).
    constructor. }
  split; [exact Hnd|].
  destruct (set_camera_sends_the_values_given kwargs quiet_session Hnd)
    as (payload & s' & Hret & Heff & Hlook & _).
  exists payload, s'. split; [exact Hret|]. split; [exact Heff|]. split.
  - apply Hlook. split; [reflexivity | discriminate].
  - destruct (lookup payload "near") as [v|] eqn:Hv; [|reflexivity].
    apply Hlook in Hv as [Hv Hne]. injection Hv as <-. contradiction.
Defined.
